(** * PawHaven: the adoption application workflow

    A shallow embedding of the three views of the shelter application that
    write adoption applications and pets:

    - [adoption_application]             (shelter/views/auth_views.py)
    - [admin_update_application_status]  (shelter/views/admin_views.py)
    - [admin_update_application_notes]   (shelter/views/admin_views.py)

    The database is a pair of finite maps from primary keys to rows; a view
    is a function from a request and a store to a new store, the flash
    messages it queued and the HTTP response. *)

From Stdlib Require Import ZArith String List Bool.
From stdpp Require Import base option list strings gmap fin_maps.

Local Open Scope Z_scope.

(** ** Rows *)

Module Pet.
(** A row of the Pet table. The primary key is the key of the row in the
    store. [columns] holds the descriptive columns the views below never
    read or write (type, breed, age, gender, size, colour, ...). *)
Record t := mk {
  name : string;
  slug : string;
  status : string;
  featured : bool;
  columns : list (string * string)
}.

Definition set_status (s : string) (p : t) : t :=
  {| name := name p; slug := slug p; status := s;
     featured := featured p; columns := columns p |}.
End Pet.

(** A value handed to the ORM for an integer column of the form: the string
    posted by the browser, or the integer default of [request.POST.get].
    The ORM converts it to an integer when the row is saved. *)
Inductive FormInt :=
  | Posted (s : string)
  | Default (n : Z).

Module AdoptionApplication.
(** A row of the AdoptionApplication table. [user] is the nullable foreign
    key to the account, [pet] the foreign key to the pet. The text columns
    of the applicant hold what [request.POST.get] returned, the two
    household columns the integers the ORM made of it. *)
Record t := mk {
  user : option Z;
  first_name : option string;
  last_name : option string;
  email : option string;
  phone : option string;
  address : option string;
  pet : Z;
  housing_type : option string;
  own_or_rent : option string;
  landlord_approval : bool;
  household_adults : Z;
  household_children : Z;
  has_other_pets : bool;
  other_pets_description : string;
  previous_pet_experience : option string;
  reason_for_adoption : option string;
  status : string;
  submitted_at : Z;
  reviewed_at : option Z;
  notes : string
}.

(** [application.status = s; application.reviewed_at = now] *)
Definition set_status (s : string) (now : Z) (a : t) : t :=
  {| user := user a; first_name := first_name a; last_name := last_name a;
     email := email a; phone := phone a; address := address a; pet := pet a;
     housing_type := housing_type a; own_or_rent := own_or_rent a;
     landlord_approval := landlord_approval a;
     household_adults := household_adults a;
     household_children := household_children a;
     has_other_pets := has_other_pets a;
     other_pets_description := other_pets_description a;
     previous_pet_experience := previous_pet_experience a;
     reason_for_adoption := reason_for_adoption a;
     status := s; submitted_at := submitted_at a;
     reviewed_at := Some now; notes := notes a |}.

(** [application.notes = n; application.reviewed_at = now] *)
Definition set_notes (n : string) (now : Z) (a : t) : t :=
  {| user := user a; first_name := first_name a; last_name := last_name a;
     email := email a; phone := phone a; address := address a; pet := pet a;
     housing_type := housing_type a; own_or_rent := own_or_rent a;
     landlord_approval := landlord_approval a;
     household_adults := household_adults a;
     household_children := household_children a;
     has_other_pets := has_other_pets a;
     other_pets_description := other_pets_description a;
     previous_pet_experience := previous_pet_experience a;
     reason_for_adoption := reason_for_adoption a;
     status := status a; submitted_at := submitted_at a;
     reviewed_at := Some now; notes := n |}.

(** The columns filled from the adoption form and at creation: all but
    [status], [reviewed_at] and [notes]. *)
Definition form_columns (a : t) :=
  (user a, first_name a, last_name a, email a, phone a, address a, pet a,
   housing_type a, own_or_rent a, landlord_approval a, household_adults a,
   household_children a, has_other_pets a, other_pets_description a,
   previous_pet_experience a, reason_for_adoption a, submitted_at a).
End AdoptionApplication.

(** ** The store *)

Record Store := mkStore {
  pets : gmap Z Pet.t;
  applications : gmap Z AdoptionApplication.t;
  (** the largest key the database has given to an application so far; rows
      may have been deleted since (the admin site allows it) *)
  application_seq : Z
}.

(** [row.save()] of a row loaded from the store: the row with that primary
    key is overwritten. *)
Definition save_pet (pk : Z) (p : Pet.t) (s : Store) : Store :=
  {| pets := <[pk := p]> (pets s); applications := applications s;
     application_seq := application_seq s |}.

Definition save_application (pk : Z) (a : AdoptionApplication.t) (s : Store)
  : Store :=
  {| pets := pets s; applications := <[pk := a]> (applications s);
     application_seq := application_seq s |}.

(** One more than the largest key in use (keys start at 1). *)
Definition next_id {A} (m : gmap Z A) : Z :=
  1 + map_fold (fun k _ acc => Z.max k acc) 0 m.

(** The primary key the database gives to a new application: one more than
    the largest key it has ever given and than the largest key on file, so
    that the key of a deleted row is not given again (the AUTOINCREMENT
    key of an AutoField on SQLite, Django's default database). *)
Definition new_application_id (s : Store) : Z :=
  Z.max (next_id (applications s)) (1 + application_seq s).

(** The INSERT of [objects.create]: the row is filed under a new key. *)
Definition file_application (a : AdoptionApplication.t) (s : Store) : Store :=
  {| pets := pets s;
     applications := <[new_application_id s := a]> (applications s);
     application_seq := new_application_id s |}.

(** [Pet.objects.filter(pk=pk, status='available').first()] *)
Definition available_pet (pk : Z) (s : Store) : option Pet.t :=
  match pets s !! pk with
  | Some p => if String.eqb (Pet.status p) "available" then Some p else None
  | None => None
  end.

(** ** Requests and responses *)

(** [request.user] *)
Inductive User :=
  | AnonymousUser
  | Account (pk : Z) (is_staff is_superuser : bool).

Definition is_authenticated (u : User) : bool :=
  match u with AnonymousUser => false | Account _ _ _ => true end.

Definition is_staff (u : User) : bool :=
  match u with AnonymousUser => false | Account _ b _ => b end.

Definition is_superuser (u : User) : bool :=
  match u with AnonymousUser => false | Account _ _ b => b end.

(** [request.user if request.user.is_authenticated else None], as the value
    of the foreign key *)
Definition user_fk (u : User) : option Z :=
  match u with AnonymousUser => None | Account pk _ _ => Some pk end.

Module Request.
(** [POST] is the posted form as a list of fields in the order received
    (a QueryDict keeps every value of a repeated field). *)
Record t := mk {
  method : string;
  user : User;
  POST : list (string * string);
  HTTP_REFERER : option string
}.
End Request.

(** [QueryDict.get(key)]: the last value posted for [key], [None] when the
    field is absent. *)
Fixpoint QueryDict_get (q : list (string * string)) (key : string)
  : option string :=
  match q with
  | [] => None
  | (k, v) :: rest =>
      match QueryDict_get rest key with
      | Some v' => Some v'
      | None => if String.eqb k key then Some v else None
      end
  end.

Inductive Level := success | error.

Definition Message : Type := Level * string.

Inductive UrlArg :=
  | IntArg (n : Z)
  | StrArg (s : string).

(** What a request ends in. [Http404] is the exception of
    [get_object_or_404]; [Uncaught] is any other exception leaving the view. *)
Inductive Response :=
  | redirect (to : string) (kwargs : list (string * UrlArg))
  | redirect_to_login
  | render (template : string)
  | Http404
  | Uncaught (exception : string).

Record Outcome := mkOutcome {
  store : Store;
  messages : list Message;
  response : Response
}.

Definition View : Type := Request.t -> Store -> Outcome.

(** ** Decorators (shelter/views/utils.py and django.contrib.auth) *)

Definition is_admin_user (u : User) : bool :=
  is_authenticated u && (is_staff u || is_superuser u).

Definition user_passes_test (test : User -> bool) (view : View) : View :=
  fun request s =>
    if test (Request.user request) then view request s
    else mkOutcome s [] redirect_to_login.

Definition login_required (view : View) : View :=
  user_passes_test is_authenticated view.

(** ** Python helpers *)

(** [needle in hay] on strings *)
Fixpoint str_in (needle hay : string) : bool :=
  String.prefix needle hay
  || match hay with
     | EmptyString => false
     | String _ rest => str_in needle rest
     end.

(** [str(x)] of an optional string *)
Definition str (x : option string) : string :=
  match x with Some s => s | None => "None" end.

(** [s in ['pending', 'approved', 'rejected', 'completed']] *)
Definition status_choice (s : string) : bool :=
  String.eqb s "pending" || String.eqb s "approved"
  || String.eqb s "rejected" || String.eqb s "completed".

(** [if x:] on an optional primary key taken from the URL *)
Definition truthy_pk (x : option Z) : bool :=
  match x with Some n => negb (n =? 0) | None => false end.

(** [not x] on an optional row *)
Definition none {A} (x : option A) : bool :=
  match x with Some _ => false | None => true end.

(** [if x:] on a string *)
Definition truthy_str (x : string) : bool :=
  match x with EmptyString => false | String _ _ => true end.

(** [request.POST.get(key) == value] *)
Definition posted_is (q : list (string * string)) (key value : string) : bool :=
  match QueryDict_get q key with
  | Some v => String.eqb v value
  | None => false
  end.

(** [request.POST.get(key, default)] with an integer default *)
Definition posted_int (q : list (string * string)) (key : string) (d : Z)
  : FormInt :=
  match QueryDict_get q key with
  | Some v => Posted v
  | None => Default d
  end.

(** [request.POST.get(key, '')] *)
Definition posted_text (q : list (string * string)) (key : string) : string :=
  match QueryDict_get q key with
  | Some v => v
  | None => EmptyString
  end.

(** ** Column defaults *)

(** Modelled from the spec: the defaults of the AdoptionApplication columns
    that [objects.create] is not given. They are declared in
    shelter/models.py, which is not among the sources; the specification
    says a new application is created "with status = pending,
    submitted_at = now(), reviewed_at = null". *)
Definition default_status : string := "pending".

(** Modelled from the spec: the default of [submitted_at], declared in
    shelter/models.py: "submitted_at = now()", the time of creation. *)
Definition default_submitted_at (now : Z) : Z := now.

(** Modelled from the spec: the default of [reviewed_at], declared in
    shelter/models.py: "reviewed_at = null". *)
Definition default_reviewed_at : option Z := None.

(** ** The views *)

Section Views.

(** [application.get_status_display()]: the label of the application's
    status among the choices declared in shelter/models.py. *)
Variable get_status_display : AdoptionApplication.t -> string.

(** The ORM's conversion of a posted value to an integer, for a primary
    key and for an integer column alike; [None] is the ValueError of a value
    that is not a number. *)
Variable to_pk : string -> option Z.

(** The default of the [notes] column, declared in shelter/models.py. *)
Variable default_notes : string.

(** Whether a row breaks a constraint of the AdoptionApplication table
    (a column that may not be null, a length): the table is declared in
    shelter/models.py, and the INSERT of such a row raises IntegrityError. *)
Variable violates : AdoptionApplication.t -> bool.

(** *** shelter/views/admin_views.py *)

(** The redirect that ends [admin_update_application_status]. *)
Definition status_redirect (request : Request.t) (application_id : Z)
  : Response :=
  let next_url := Request.HTTP_REFERER request in
  if str_in "admin_application_detail" (str next_url)
  then redirect "admin_application_detail"
                [("application_id"%string, IntArg application_id)]
  else redirect "admin_applications" [].

(** [application.pet.status = status; application.pet.save()] on the store
    [s]; [None] is Pet.DoesNotExist, raised by [application.pet]. *)
Definition cascade (status : string) (application : AdoptionApplication.t)
    (s : Store) : option Store :=
  let pk := AdoptionApplication.pet application in
  match pets s !! pk with
  | Some pet => Some (save_pet pk (Pet.set_status status pet) s)
  | None => None
  end.

(** The body of [admin_update_application_status], under its decorators.
    [now] is the reading of [timezone.now()] during the request. *)
Definition update_application_status (now : Z) (application_id : Z) : View :=
  fun request s =>
    if String.eqb (Request.method request) "POST" then
      match applications s !! application_id with
      | None => mkOutcome s [] Http404
      | Some application =>
          let invalid :=
            mkOutcome s [(error, "Invalid status"%string)]
                      (status_redirect request application_id) in
          match QueryDict_get (Request.POST request) "status" with
          | None => invalid
          | Some new_status =>
              if status_choice new_status then
                let old_status := AdoptionApplication.status application in
                let application :=
                  AdoptionApplication.set_status new_status now application in
                let s1 := save_application application_id application s in
                let s2 :=
                  if String.eqb new_status "completed" then
                    cascade "adopted" application s1
                  else if String.eqb old_status "completed"
                          && negb (String.eqb new_status "completed") then
                    cascade "available" application s1
                  else Some s1 in
                match s2 with
                | Some s2 =>
                    mkOutcome s2
                      [(success,
                        String.append "Application status updated to "
                                      (get_status_display application))]
                      (status_redirect request application_id)
                | None => mkOutcome s1 [] (Uncaught "DoesNotExist")
                end
              else invalid
          end
      end
    else mkOutcome s [] (status_redirect request application_id).

Definition admin_update_application_status (now : Z) (application_id : Z)
  : View :=
  login_required
    (user_passes_test is_admin_user
       (update_application_status now application_id)).

(** The body of [admin_update_application_notes]. *)
Definition update_application_notes (now : Z) (application_id : Z) : View :=
  fun request s =>
    let back :=
      redirect "admin_application_detail"
               [("application_id"%string, IntArg application_id)] in
    if String.eqb (Request.method request) "POST" then
      match applications s !! application_id with
      | None => mkOutcome s [] Http404
      | Some application =>
          let notes := posted_text (Request.POST request) "notes" in
          let application :=
            AdoptionApplication.set_notes notes now application in
          mkOutcome (save_application application_id application s)
                    [(success, "Notes updated successfully"%string)]
                    back
      end
    else mkOutcome s [] back.

Definition admin_update_application_notes (now : Z) (application_id : Z)
  : View :=
  login_required
    (user_passes_test is_admin_user
       (update_application_notes now application_id)).

(** *** shelter/views/auth_views.py *)

(** The integer the ORM makes of a value given for an integer column. *)
Definition to_int (x : FormInt) : option Z :=
  match x with
  | Posted v => to_pk v
  | Default n => Some n
  end.

(** The row that [AdoptionApplication.objects.create(...)] builds from the
    fields of the form, for the pet with primary key [pet], at time [now],
    once the two household columns are integers. *)
Definition new_application (now : Z) (user : option Z) (pet : Z)
    (form : list (string * string)) (adults children : Z)
  : AdoptionApplication.t :=
  {| AdoptionApplication.user := user;
     AdoptionApplication.first_name := QueryDict_get form "first_name";
     AdoptionApplication.last_name := QueryDict_get form "last_name";
     AdoptionApplication.email := QueryDict_get form "email";
     AdoptionApplication.phone := QueryDict_get form "phone";
     AdoptionApplication.address := QueryDict_get form "address";
     AdoptionApplication.pet := pet;
     AdoptionApplication.housing_type := QueryDict_get form "housing_type";
     AdoptionApplication.own_or_rent := QueryDict_get form "own_or_rent";
     AdoptionApplication.landlord_approval :=
       posted_is form "landlord_approval" "yes";
     AdoptionApplication.household_adults := adults;
     AdoptionApplication.household_children := children;
     AdoptionApplication.has_other_pets :=
       posted_is form "has_other_pets" "yes";
     AdoptionApplication.other_pets_description :=
       posted_text form "other_pets_description";
     AdoptionApplication.previous_pet_experience :=
       QueryDict_get form "previous_pet_experience";
     AdoptionApplication.reason_for_adoption :=
       QueryDict_get form "reason_for_adoption";
     AdoptionApplication.status := default_status;
     AdoptionApplication.submitted_at := default_submitted_at now;
     AdoptionApplication.reviewed_at := default_reviewed_at;
     AdoptionApplication.notes := default_notes |}.

(** What [AdoptionApplication.objects.create(...)] comes to: the row to
    file, or the exception it raises. A household column that is not a
    number is a ValueError, a row that breaks a constraint of the table an
    IntegrityError; nothing is filed in either case. *)
Inductive Created :=
  | Saved (application : AdoptionApplication.t)
  | Raised (exception : string).

Definition objects_create (now : Z) (user : option Z) (pet : Z)
    (form : list (string * string)) : Created :=
  match to_int (posted_int form "household_adults" 1) with
  | None => Raised "ValueError"
  | Some adults =>
      match to_int (posted_int form "household_children" 0) with
      | None => Raised "ValueError"
      | Some children =>
          let application :=
            new_application now user pet form adults children in
          if violates application then Raised "IntegrityError"
          else Saved application
      end
  end.

(** The end of [adoption_application] once [pet] is known: the row is
    created and the applicant redirected, unless [objects.create] raises. *)
Definition create_and_redirect (now : Z) (request : Request.t)
    (pk : Z) (pet : Pet.t) (s : Store) : Outcome :=
  let user := user_fk (Request.user request) in
  match objects_create now user pk (Request.POST request) with
  | Raised exception => mkOutcome s [] (Uncaught exception)
  | Saved application =>
      mkOutcome (file_application application s)
        [(success,
          "Your application has been submitted successfully! We will review it and contact you soon."%string)]
        (if is_authenticated (Request.user request)
         then redirect "user_applications" []
         else redirect "pet_detail"
                       [("pk"%string, IntArg pk);
                        ("slug"%string, StrArg (Pet.slug pet))])
  end.

(** The body of [adoption_application]; [pet_id] is the optional primary
    key of the URL. *)
Definition submit_application (now : Z) (pet_id : option Z) : View :=
  fun request s =>
    let invalid_pet :=
      mkOutcome s [(error, "Please select a valid pet."%string)]
                (redirect "adoption_application" []) in
    let pet :=
      match pet_id with
      | Some pk =>
          if truthy_pk pet_id
          then option_map (pair pk) (available_pet pk s)
          else None
      | None => None
      end in
    if truthy_pk pet_id && none pet then
      mkOutcome s
        [(error, "Pet not found or no longer available."%string)]
        (redirect "pets" [])
    else if String.eqb (Request.method request) "POST" then
      match pet with
      | Some (pk, p) => create_and_redirect now request pk p s
      | None =>
          match QueryDict_get (Request.POST request) "pet_id" with
          | None => invalid_pet
          | Some pet_post_id =>
              if truthy_str pet_post_id then
                match to_pk pet_post_id with
                | None => mkOutcome s [] (Uncaught "ValueError")
                | Some pk =>
                    match available_pet pk s with
                    | Some p => create_and_redirect now request pk p s
                    | None => invalid_pet
                    end
                end
              else invalid_pet
          end
      end
    else mkOutcome s [] (render "shelter/adoption_application.html").

Definition adoption_application (now : Z) (pet_id : option Z) : View :=
  login_required (submit_application now pet_id).

End Views.

(** ** The workflow as operations on the store *)

(** The three operations of the workflow, each an HTTP request to one of
    the views at a given time. *)
Inductive Operation :=
  | submit (now : Z) (pet_id : option Z) (request : Request.t)
  | set_status (now : Z) (application_id : Z) (request : Request.t)
  | set_notes (now : Z) (application_id : Z) (request : Request.t).

(** [objects.create] did not raise. *)
Definition is_saved (c : Created) : bool :=
  match c with Saved _ => true | Raised _ => false end.

Section Workflow.

Variable get_status_display : AdoptionApplication.t -> string.
Variable to_pk : string -> option Z.
Variable default_notes : string.
Variable violates : AdoptionApplication.t -> bool.

Definition handle (op : Operation) (s : Store) : Outcome :=
  match op with
  | submit now pet_id request =>
      adoption_application to_pk default_notes violates now pet_id request s
  | set_status now application_id request =>
      admin_update_application_status get_status_display
        now application_id request s
  | set_notes now application_id request =>
      admin_update_application_notes now application_id request s
  end.

Definition perform (s : Store) (op : Operation) : Store :=
  store (handle op s).

Definition perform_all (ops : list Operation) (s : Store) : Store :=
  fold_left perform ops s.

(** The request names the pet with primary key [pk]: in the URL, or, when
    the URL names none, in the posted [pet_id] field. *)
Definition submission_for (pk : Z) (pet_id : option Z) (request : Request.t)
  : Prop :=
  (pet_id = Some pk /\ pk <> 0)
  \/ (truthy_pk pet_id = false
      /\ exists v, QueryDict_get (Request.POST request) "pet_id" = Some v
                   /\ truthy_str v = true /\ to_pk v = Some pk).

(** The form of the request makes a row the database accepts for the pet
    [pk]: the two household columns are numbers and no constraint of the
    table is broken. *)
Definition accepted (now : Z) (pk : Z) (request : Request.t) : Prop :=
  is_saved (objects_create to_pk default_notes violates now
              (user_fk (Request.user request)) pk (Request.POST request))
  = true.

(** [op] is a successful submission of the adoption form by an
    authenticated account, naming the pet [pk]. *)
Definition submits_for (pk : Z) (op : Operation) : Prop :=
  match op with
  | submit now pet_id request =>
      is_authenticated (Request.user request) = true
      /\ Request.method request = "POST"%string
      /\ submission_for pk pet_id request
      /\ accepted now pk request
  | set_status _ _ _ | set_notes _ _ _ => False
  end.

End Workflow.

(** The store after a status update with a recognized status, for an
    application whose pet is on file. *)
Definition updated_store (now : Z) (id : Z) (a : AdoptionApplication.t)
    (p : Pet.t) (v : string) (s : Store) : Store :=
  let s1 := save_application id (AdoptionApplication.set_status v now a) s in
  let pk := AdoptionApplication.pet a in
  if String.eqb v "completed" then
    save_pet pk (Pet.set_status "adopted" p) s1
  else if String.eqb (AdoptionApplication.status a) "completed" then
    save_pet pk (Pet.set_status "available" p) s1
  else s1.

(** The message of a submission refused because of its pet. *)
Definition refusal (pet_id : option Z) : string :=
  if truthy_pk pet_id then "Pet not found or no longer available."%string
  else "Please select a valid pet."%string.

(** The pet row [p'] has the status [st] and every other column of [p]. *)
Definition with_status (st : string) (p p' : Pet.t) : Prop :=
  Pet.status p' = st
  /\ Pet.name p' = Pet.name p
  /\ Pet.slug p' = Pet.slug p
  /\ Pet.featured p' = Pet.featured p
  /\ Pet.columns p' = Pet.columns p.

(** ** The availability rule *)

(** Application [a] is a completed application for the pet [pk]. *)
Definition completed_for (pk : Z) (id : Z) (a : AdoptionApplication.t) : Prop :=
  AdoptionApplication.pet a = pk /\ AdoptionApplication.status a = "completed"%string.

Definition has_completed_application (s : Store) (pk : Z) : Prop :=
  map_Exists (completed_for pk) (applications s).

(** A pet is adopted if and only if it has a completed application. *)
Definition adopted_iff_completed (s : Store) : Prop :=
  map_Forall
    (fun pk p => Pet.status p = "adopted"%string <-> has_completed_application s pk)
    (pets s).

(** A pet is adopted only if it has a completed application. *)
Definition adopted_only_if_completed (s : Store) : Prop :=
  map_Forall
    (fun pk p => Pet.status p = "adopted"%string -> has_completed_application s pk)
    (pets s).

#[global] Instance completed_for_dec pk id a : Decision (completed_for pk id a).
Proof. unfold completed_for. apply _. Defined.

#[global] Instance has_completed_application_dec s pk :
  Decision (has_completed_application s pk).
Proof. unfold has_completed_application. apply _. Defined.

#[global] Instance adopted_iff_completed_dec s : Decision (adopted_iff_completed s).
Proof. unfold adopted_iff_completed. apply _. Defined.

#[global] Instance adopted_only_if_completed_dec s :
  Decision (adopted_only_if_completed s).
Proof. unfold adopted_only_if_completed. apply _. Defined.

(** ** Instances and sample data

    Instances of the three parameters of the views and a small store, used
    to run the views on concrete requests. *)

(** A status label: the status with its first letter in upper case. *)
Definition title (s : string) : string :=
  match s with
  | EmptyString => EmptyString
  | String c rest =>
      let n := Ascii.nat_of_ascii c in
      String (if (97 <=? n)%nat && (n <=? 122)%nat
              then Ascii.ascii_of_nat (n - 32) else c) rest
  end.

Definition status_label (a : AdoptionApplication.t) : string :=
  title (AdoptionApplication.status a).

(** Reading a primary key written in decimal digits. *)
Definition digit (c : Ascii.ascii) : option Z :=
  let n := Z.of_nat (Ascii.nat_of_ascii c) in
  if (48 <=? n) && (n <=? 57) then Some (n - 48) else None.

Fixpoint decimal_from (acc : Z) (s : string) : option Z :=
  match s with
  | EmptyString => Some acc
  | String c rest =>
      match digit c with
      | Some d => decimal_from (10 * acc + d) rest
      | None => None
      end
  end.

Definition decimal (s : string) : option Z :=
  match s with
  | EmptyString => None
  | String _ _ => decimal_from 0 s
  end.

Definition luna : Pet.t :=
  Pet.mk "Luna" "luna" "available" false [("type", "cat")]%string.

Definition applicant_form (first email : string) : list (string * string) :=
  [("first_name", first); ("last_name", "Doe"); ("email", email);
   ("phone", "555-1234"); ("address", "1 Main St");
   ("housing_type", "house"); ("own_or_rent", "own");
   ("landlord_approval", "no"); ("household_adults", "2");
   ("has_other_pets", "yes"); ("other_pets_description", "one dog");
   ("previous_pet_experience", "many years");
   ("reason_for_adoption", "company")]%string.

(** A pending application for Luna (pet 1) by the account [user]. *)
Definition pending_application (user : Z) (first email : string) (now : Z)
  : AdoptionApplication.t :=
  new_application EmptyString now (Some user) 1 (applicant_form first email)
    2 0.

(** A sample of the constraints of the table: the name and the e-mail
    address of the applicant may not be null. *)
Definition lacks_applicant (a : AdoptionApplication.t) : bool :=
  none (AdoptionApplication.first_name a)
  || none (AdoptionApplication.last_name a)
  || none (AdoptionApplication.email a).

(** Luna with two pending applications. *)
Definition shelter0 : Store :=
  {| pets := {[ 1 := luna ]};
     applications :=
       {[ 1 := pending_application 7 "Ann" "ann@example.com" 100;
          2 := pending_application 8 "Bob" "bob@example.com" 101 ]};
     application_seq := 2 |}.

Definition staff : User := Account 2 true false.
Definition adopter : User := Account 7 false false.

(** A staff request posting [status]. *)
Definition post_status (status : string) : Request.t :=
  Request.mk "POST" staff [("status"%string, status)] None.

(** A staff request posting [notes]. *)
Definition post_notes (notes : string) : Request.t :=
  Request.mk "POST" staff [("notes"%string, notes)] None.

(** An applicant's request posting the adoption form. *)
Definition post_form (user : User) (first email : string) : Request.t :=
  Request.mk "POST" user (applicant_form first email) None.

(** A staff request following a link. *)
Definition get_page : Request.t :=
  Request.mk "GET" staff [] (Some "/manage/admin_application_detail/1/"%string).

(** Luna adopted through Ann's completed application. *)
Definition shelter_adopted : Store :=
  {| pets := {[ 1 := Pet.set_status "adopted" luna ]};
     applications :=
       {[ 1 := AdoptionApplication.set_status "completed" 150
                 (pending_application 7 "Ann" "ann@example.com" 100) ]};
     application_seq := 1 |}.

(** Two more applications for Luna, one naming her in the URL and one in
    the form. *)
Definition two_submissions : list Operation :=
  [ submit 300 (Some 1) (post_form (Account 9 false false) "Cy" "cy@example.com");
    submit 301 None
      (Request.mk "POST" (Account 10 false false)
         (("pet_id", "1")%string :: applicant_form "Di" "di@example.com")
         None) ].

(** Both applications for Luna are completed, then Ann's is rejected. *)
Definition complete_both_revert_one : list Operation :=
  [ set_status 200 1 (post_status "completed");
    set_status 201 2 (post_status "completed");
    set_status 202 1 (post_status "rejected") ].

From stdpp Require Import sorting.

Local Open Scope Z_scope.

(** ** What the workflow keeps of a row *)

(** The pet row [p'] is [p] up to its status, and its status is that of [p],
    adopted or available. *)
Definition status_moved (p p' : Pet.t) : Prop :=
  Pet.name p' = Pet.name p
  /\ Pet.slug p' = Pet.slug p
  /\ Pet.featured p' = Pet.featured p
  /\ Pet.columns p' = Pet.columns p
  /\ (Pet.status p' = Pet.status p
      \/ Pet.status p' = "adopted"%string
      \/ Pet.status p' = "available"%string).

(** Every pet of [s'] is a pet of [s] up to its status, and no pet is gone. *)
Definition pets_status_moved (s s' : Store) : Prop :=
  dom (pets s') = dom (pets s)
  /\ forall pk p', pets s' !! pk = Some p' ->
       exists p, pets s !! pk = Some p /\ status_moved p p'.

(** Every application of [s] is still on file in [s'], with the columns of
    the form it was created from. *)
Definition applications_kept (s s' : Store) : Prop :=
  forall id a, applications s !! id = Some a ->
    exists a', applications s' !! id = Some a'
               /\ AdoptionApplication.form_columns a'
                  = AdoptionApplication.form_columns a.

(** Referential integrity: the pet of every application is on file. *)
Definition pets_on_file (s : Store) : Prop :=
  map_Forall
    (fun _ a => is_Some (pets s !! AdoptionApplication.pet a))
    (applications s).

#[global] Instance pets_on_file_dec s : Decision (pets_on_file s).
Proof. unfold pets_on_file. apply _. Defined.

(** Every application has one of the four statuses of the workflow. *)
Definition statuses_recognized (s : Store) : Prop :=
  map_Forall
    (fun _ a => status_choice (AdoptionApplication.status a) = true)
    (applications s).

#[global] Instance statuses_recognized_dec s : Decision (statuses_recognized s).
Proof. unfold statuses_recognized. apply _. Defined.

(** Every application of [s'] was on file in [s], with the same form columns
    and with its old status or one of the four statuses of the workflow, or
    is new, for a pet on file in [s], with one of the four statuses. *)
Definition applications_from (s s' : Store) : Prop :=
  forall id a', applications s' !! id = Some a' ->
    (exists a, applications s !! id = Some a
               /\ AdoptionApplication.form_columns a'
                  = AdoptionApplication.form_columns a
               /\ (AdoptionApplication.status a' = AdoptionApplication.status a
                   \/ status_choice (AdoptionApplication.status a') = true))
    \/ (applications s !! id = None
        /\ is_Some (pets s !! AdoptionApplication.pet a')
        /\ status_choice (AdoptionApplication.status a') = true).

(** What a history of the workflow can make of a store. *)
Definition evolves (s s' : Store) : Prop :=
  pets_status_moved s s' /\ applications_kept s s' /\ applications_from s s'.

(** ** The staff views as functions of the store *)

(** The request passes the staff decorators and is a POST. *)
Definition staff_post (request : Request.t) : bool :=
  is_admin_user (Request.user request)
  && String.eqb (Request.method request) "POST".

(** The posted status, when it is one of the four choices. *)
Definition posted_status (request : Request.t) : option string :=
  match QueryDict_get (Request.POST request) "status" with
  | Some v => if status_choice v then Some v else None
  | None => None
  end.

(** The store once the status [v] is saved for the application [a] under
    the key [id]: the row is saved, then the pet if the cascade applies and
    the pet is on file. *)
Definition settled (now : Z) (id : Z) (a : AdoptionApplication.t)
    (v : string) (s : Store) : Store :=
  let s1 := save_application id (AdoptionApplication.set_status v now a) s in
  let pk := AdoptionApplication.pet a in
  match pets s !! pk with
  | Some p =>
      if String.eqb v "completed" then
        save_pet pk (Pet.set_status "adopted" p) s1
      else if String.eqb (AdoptionApplication.status a) "completed" then
        save_pet pk (Pet.set_status "available" p) s1
      else s1
  | None => s1
  end.

(** ** Reverting one of two completed applications *)


(** Another application than [id] is completed for the pet of [a]. *)
Definition completed_sibling (s : Store) (id : Z) (a : AdoptionApplication.t)
  : Prop :=
  map_Exists
    (fun id' a' =>
       id' <> id /\ completed_for (AdoptionApplication.pet a) id' a')
    (applications s).

#[global] Instance completed_sibling_dec s id a :
  Decision (completed_sibling s id a).
Proof. unfold completed_sibling. apply _. Defined.

(** [op] is a status update that takes an application out of completed
    while another application for the same pet is completed. *)
Definition reverts_with_sibling (s : Store) (op : Operation) : Prop :=
  match op with
  | set_status _ id request =>
      match applications s !! id, posted_status request with
      | Some a, Some v =>
          staff_post request = true
          /\ AdoptionApplication.status a = "completed"%string
          /\ v <> "completed"%string
          /\ completed_sibling s id a
      | _, _ => False
      end
  | submit _ _ _ | set_notes _ _ _ => False
  end.

#[global] Instance reverts_with_sibling_dec s op :
  Decision (reverts_with_sibling s op).
Proof.
  unfold reverts_with_sibling. destruct op; try apply _.
  destruct (applications s !! application_id); [|apply _].
  destruct (posted_status request); apply _.
Defined.

Section SiblingSafe.

Variable get_status_display : AdoptionApplication.t -> string.
Variable to_pk : string -> option Z.
Variable default_notes : string.
Variable violates : AdoptionApplication.t -> bool.


End SiblingSafe.

(** Ann's application is completed, then Bob's approved. *)
Definition complete_approve : list Operation :=
  [ set_status 200 1 (post_status "completed");
    set_status 201 2 (post_status "approved") ].

(** Luna kept on hold by staff (status pending), with Ann's application. *)
Definition shelter_hold : Store :=
  {| pets := {[ 1 := Pet.set_status "pending" luna ]};
     applications :=
       {[ 1 := pending_application 7 "Ann" "ann@example.com" 100 ]};
     application_seq := 1 |}.

(** ** Contact messages *)

Module ContactMessage.
(** A row of the ContactMessage table, as the contact form fills it. *)
Record t := mk {
  name : option string;
  email : option string;
  phone : string;
  subject : option string;
  message : option string;
  is_read : bool;
  is_responded : bool;
  created_at : Z
}.

(** [contact.is_read = b] *)
Definition set_is_read (b : bool) (c : t) : t :=
  {| name := name c; email := email c; phone := phone c;
     subject := subject c; message := message c;
     is_read := b; is_responded := is_responded c;
     created_at := created_at c |}.

(** [contact.is_responded = b] *)
Definition set_is_responded (b : bool) (c : t) : t :=
  {| name := name c; email := email c; phone := phone c;
     subject := subject c; message := message c;
     is_read := is_read c; is_responded := b;
     created_at := created_at c |}.
End ContactMessage.

(** What a request to a view on contact messages ends in: the table of
    messages, the flash messages queued and the response. *)
Record InboxOutcome := mkInboxOutcome {
  inbox : gmap Z ContactMessage.t;
  notices : list Message;
  reply : Response
}.

(** [user_passes_test(test)] around a view over any state: a caller who
    fails the test is sent to the login page by [to_login]. *)
Definition guarded {S O} (test : User -> bool) (to_login : S -> O)
    (view : Request.t -> S -> O) : Request.t -> S -> O :=
  fun request s =>
    if test (Request.user request) then view request s else to_login s.

(** [@login_required @user_passes_test(is_admin_user)] *)
Definition staff_only {S O} (to_login : S -> O)
    (view : Request.t -> S -> O) : Request.t -> S -> O :=
  guarded is_authenticated to_login (guarded is_admin_user to_login view).

Definition inbox_to_login (m : gmap Z ContactMessage.t) : InboxOutcome :=
  mkInboxOutcome m [] redirect_to_login.

(** The body of [admin_contact_detail]: the message is marked as read when
    it is shown, whatever the method of the request. *)
Definition contact_detail (contact_id : Z)
  : Request.t -> gmap Z ContactMessage.t -> InboxOutcome :=
  fun request m =>
    match m !! contact_id with
    | None => mkInboxOutcome m [] Http404
    | Some contact =>
        let m' :=
          if negb (ContactMessage.is_read contact)
          then <[contact_id := ContactMessage.set_is_read true contact]> m
          else m in
        mkInboxOutcome m' [] (render "shelter/admin/admin_contact_detail.html")
    end.

Definition admin_contact_detail (contact_id : Z)
  : Request.t -> gmap Z ContactMessage.t -> InboxOutcome :=
  staff_only inbox_to_login (contact_detail contact_id).

(** The body of [admin_update_contact_status]. *)
Definition update_contact_status (contact_id : Z)
  : Request.t -> gmap Z ContactMessage.t -> InboxOutcome :=
  fun request m =>
    let back :=
      redirect "admin_contact_detail"
               [("contact_id"%string, IntArg contact_id)] in
    if String.eqb (Request.method request) "POST" then
      match m !! contact_id with
      | None => mkInboxOutcome m [] Http404
      | Some contact =>
          match QueryDict_get (Request.POST request) "action" with
          | Some action =>
              if String.eqb action "mark_responded" then
                mkInboxOutcome
                  (<[contact_id :=
                       ContactMessage.set_is_responded true contact]> m)
                  [(success, "Message marked as responded"%string)] back
              else if String.eqb action "mark_unresponded" then
                mkInboxOutcome
                  (<[contact_id :=
                       ContactMessage.set_is_responded false contact]> m)
                  [(success, "Message marked as not responded"%string)] back
              else mkInboxOutcome m [] back
          | None => mkInboxOutcome m [] back
          end
      end
    else mkInboxOutcome m [] back.

Definition admin_update_contact_status (contact_id : Z)
  : Request.t -> gmap Z ContactMessage.t -> InboxOutcome :=
  staff_only inbox_to_login (update_contact_status contact_id).

(** The flag a posted [action] stands for. *)
Definition action_flag (action : string) : option bool :=
  if String.eqb action "mark_responded" then Some true
  else if String.eqb action "mark_unresponded" then Some false
  else None.

(** ** Pages *)

(** What a read-only view ends in: a template rendered with a context, or
    another response. *)
Inductive Page (C : Type) :=
  | page (template : string) (context : C)
  | instead (response : Response).

Arguments page {C} template context.
Arguments instead {C} response.

(** [queryset.order_by('-column')]: the rows by decreasing [column]. Rows
    with equal values come in the order the sort leaves them in. *)
Definition later_first {A} (column : A -> Z) (x y : Z * A) : Prop :=
  column y.2 <= column x.2.

#[global] Instance later_first_dec {A} (column : A -> Z) x y :
  Decision (later_first column x y).
Proof. unfold later_first. apply _. Defined.

Definition order_by_desc {A} (column : A -> Z) (rows : list (Z * A))
  : list (Z * A) :=
  merge_sort (later_first column) rows.

(** ** Counts of the dashboard and of the homepage *)

(** [Pet.objects.filter(status=status).count()] *)
Definition count_pets (status : string) (s : Store) : nat :=
  size (filter (fun kv : Z * Pet.t => Pet.status kv.2 = status) (pets s)).

(** [AdoptionApplication.objects.filter(status=status).count()] *)
Definition count_applications (status : string) (s : Store) : nat :=
  size (filter
          (fun kv : Z * AdoptionApplication.t =>
             AdoptionApplication.status kv.2 = status)
          (applications s)).

(** [ContactMessage.objects.filter(is_read=False).count()] *)
Definition count_unread (m : gmap Z ContactMessage.t) : nat :=
  size (filter
          (fun kv : Z * ContactMessage.t => ContactMessage.is_read kv.2 = false)
          m).

Module Dashboard.
(** The [stats] of [admin_dashboard]. *)
Record stats := mk_stats {
  pending_applications : nat;
  available_pets : nat;
  total_adopted : nat;
  unread_messages : nat
}.

(** The context of [admin_dashboard]. *)
Record t := mk {
  the_stats : stats;
  recent_applications : list (Z * AdoptionApplication.t);
  recent_contacts : list (Z * ContactMessage.t)
}.
End Dashboard.

Definition dashboard_stats (s : Store) (m : gmap Z ContactMessage.t)
  : Dashboard.stats :=
  {| Dashboard.pending_applications := count_applications "pending" s;
     Dashboard.available_pets := count_pets "available" s;
     Dashboard.total_adopted := count_pets "adopted" s;
     Dashboard.unread_messages := count_unread m |}.

(** The body of [admin_dashboard]: the counts, the five latest applications
    and the five latest contact messages. *)
Definition dashboard (request : Request.t)
    (db : Store * gmap Z ContactMessage.t) : Page Dashboard.t :=
  let '(s, m) := db in
  page "shelter/admin/admin_dashboard.html"
    {| Dashboard.the_stats := dashboard_stats s m;
       Dashboard.recent_applications :=
         take 5 (order_by_desc AdoptionApplication.submitted_at
                   (map_to_list (applications s)));
       Dashboard.recent_contacts :=
         take 5 (order_by_desc ContactMessage.created_at (map_to_list m)) |}.

Definition admin_dashboard
  : Request.t -> Store * gmap Z ContactMessage.t -> Page Dashboard.t :=
  staff_only (fun _ => instead redirect_to_login) dashboard.

(** [x or d] on counts *)
Definition or_else (x d : nat) : nat :=
  match x with O => d | S _ => x end.

Module Home.
(** The [stats] of [home]. *)
Record stats := mk_stats {
  total_adopted : nat;
  available_now : nat;
  happy_families : nat;
  years_of_service : nat
}.
End Home.

(** The [stats] that [home] puts in its context. (Its [featured_pets] come
    in the default order of the Pet model, declared in shelter/models.py.) *)
Definition home_stats (s : Store) : Home.stats :=
  {| Home.total_adopted := or_else (count_pets "adopted" s) 1247;
     Home.available_now := or_else (count_pets "available" s) 15;
     Home.happy_families := or_else (count_applications "completed" s) 156;
     Home.years_of_service := 8 |}.

(** ** The applicant's own pages (shelter/views/auth_views.py) *)

Section OwnPages.

(** The e-mail address of an account, a column of the users table. *)
Variable email_of : Z -> string.

(** [Q(user=request.user) | Q(email=request.user.email)] for the account
    with primary key [u] *)
Definition own (u : Z) (a : AdoptionApplication.t) : Prop :=
  AdoptionApplication.user a = Some u
  \/ AdoptionApplication.email a = Some (email_of u).

#[global] Instance own_dec u a : Decision (own u a).
Proof. unfold own. apply _. Defined.

(** The applications of the account, latest first. *)
Definition own_applications (u : Z) (s : Store)
  : list (Z * AdoptionApplication.t) :=
  order_by_desc AdoptionApplication.submitted_at
    (filter (fun kv : Z * AdoptionApplication.t => own u kv.2)
            (map_to_list (applications s))).

(** [user_applications], under [login_required]. *)
Definition user_applications (request : Request.t) (s : Store)
  : Page (list (Z * AdoptionApplication.t)) :=
  match Request.user request with
  | AnonymousUser => instead redirect_to_login
  | Account u _ _ => page "shelter/user_applications.html" (own_applications u s)
  end.

(** [account], under [login_required]: staff are sent to the dashboard,
    others see their three latest applications. *)
Definition account (request : Request.t) (s : Store)
  : Page (list (Z * AdoptionApplication.t)) :=
  match Request.user request with
  | AnonymousUser => instead redirect_to_login
  | Account u staff superuser =>
      if staff || superuser then instead (redirect "admin_dashboard" [])
      else page "shelter/account.html" (take 3 (own_applications u s))
  end.

End OwnPages.

(** ** More sample data *)

Definition enquiry : ContactMessage.t :=
  ContactMessage.mk (Some "Eve") (Some "eve@example.com") EmptyString
    (Some "Visiting hours") (Some "When are you open?") false false 90.

Definition sample_inbox : gmap Z ContactMessage.t := {[ 5 := enquiry ]}.

(** A staff request posting [action]. *)
Definition post_action (action : string) : Request.t :=
  Request.mk "POST" staff [("action"%string, action)] None.

(** The e-mail addresses of the sample accounts. *)
Definition sample_email (u : Z) : string :=
  if u =? 7 then "ann@example.com"
  else if u =? 8 then "bob@example.com"
  else "someone@example.com".

(** * Properties *)

(** ** Primary keys *)

Lemma max_key_bound {A} (m : gmap Z A) k :
  is_Some (m !! k) -> k <= map_fold (fun k _ acc => Z.max k acc) 0 m.
Proof.
  revert k.
  apply (map_fold_weak_ind
           (fun r (m : gmap Z A) => forall k, is_Some (m !! k) -> k <= r)).
  - intros k [x Hx]. rewrite lookup_empty in Hx. discriminate.
  - intros i x m' r _ IH k Hk.
    destruct (decide (i = k)) as [->|Hne]; [lia|].
    rewrite lookup_insert_ne in Hk by done.
    specialize (IH k Hk). lia.
Qed.

Lemma next_id_fresh {A} (m : gmap Z A) : m !! next_id m = None.
Proof.
  destruct (m !! next_id m) eqn:E; [|done].
  assert (H : next_id m <= map_fold (fun k _ acc => Z.max k acc) 0 m)
    by (apply max_key_bound; eauto).
  unfold next_id in H. lia.
Qed.

Lemma new_application_id_fresh s :
  applications s !! new_application_id s = None.
Proof.
  destruct (applications s !! new_application_id s) eqn:E; [|done].
  assert (H : new_application_id s
              <= map_fold (fun k _ acc => Z.max k acc) 0 (applications s))
    by (apply max_key_bound; eauto).
  unfold new_application_id, next_id in H. lia.
Qed.


(** ** Strings *)

Lemma eqb_completed_false (v : string) :
  v <> "completed"%string -> String.eqb v "completed" = false.
Proof. intros H. by apply String.eqb_neq. Qed.

Lemma status_choice_elem (v : string) :
  status_choice v = true <->
  v ∈ ["pending"; "approved"; "rejected"; "completed"]%string.
Proof.
  unfold status_choice. rewrite !orb_true_iff, !String.eqb_eq.
  rewrite !elem_of_cons, elem_of_nil. tauto.
Qed.

Lemma status_choice_false (v : string) :
  v ∉ ["pending"; "approved"; "rejected"; "completed"]%string ->
  status_choice v = false.
Proof.
  intros H. destruct (status_choice v) eqn:E; [|done].
  by apply status_choice_elem in E.
Qed.

(** ** Decorators *)

Lemma admin_is_authenticated u : is_admin_user u = true -> is_authenticated u = true.
Proof. unfold is_admin_user. by intros [? _]%andb_true_iff. Qed.

Lemma staff_only_admin (view : View) request s :
  is_admin_user (Request.user request) = true ->
  login_required (user_passes_test is_admin_user view) request s
  = view request s.
Proof.
  intros H. unfold login_required, user_passes_test.
  by rewrite (admin_is_authenticated _ H), H.
Qed.

Lemma staff_only_other (view : View) request s :
  is_admin_user (Request.user request) = false ->
  login_required (user_passes_test is_admin_user view) request s
  = mkOutcome s [] redirect_to_login.
Proof.
  intros H. unfold login_required, user_passes_test.
  rewrite H. by destruct (is_authenticated _).
Qed.

Lemma status_redirect_is_redirect request application_id :
  exists to kwargs, status_redirect request application_id = redirect to kwargs.
Proof. unfold status_redirect. destruct (str_in _ _); eauto. Qed.

(** ** Status updates *)

Section StatusUpdate.

Variable get_status_display : AdoptionApplication.t -> string.

Lemma update_application_status_valid now id request s a p v :
  Request.method request = "POST"%string ->
  applications s !! id = Some a ->
  pets s !! AdoptionApplication.pet a = Some p ->
  QueryDict_get (Request.POST request) "status" = Some v ->
  status_choice v = true ->
  update_application_status get_status_display now id request s
  = mkOutcome (updated_store now id a p v s)
      [(success,
        String.append "Application status updated to "
          (get_status_display (AdoptionApplication.set_status v now a)))]
      (status_redirect request id).
Proof.
  intros Hm Ha Hp Hv Hc.
  unfold update_application_status, updated_store.
  rewrite Hm, Ha, Hv, Hc. simpl.
  destruct (String.eqb v "completed") eqn:Ev; simpl.
  - unfold cascade. simpl. by rewrite Hp.
  - destruct (String.eqb (AdoptionApplication.status a) "completed");
      simpl; [|done].
    unfold cascade. simpl. by rewrite Hp.
Qed.

Lemma update_application_status_invalid now id request s a :
  Request.method request = "POST"%string ->
  applications s !! id = Some a ->
  (forall v, QueryDict_get (Request.POST request) "status" = Some v ->
             status_choice v = false) ->
  update_application_status get_status_display now id request s
  = mkOutcome s [(error, "Invalid status"%string)] (status_redirect request id).
Proof.
  intros Hm Ha Hv. unfold update_application_status. rewrite Hm, Ha. simpl.
  destruct (QueryDict_get _ _) as [v|] eqn:E; [|done].
  by rewrite (Hv v eq_refl).
Qed.

(** C2. A status update with a recognized status sets the status of the
    application's pet to adopted when the new status is completed, and to
    available when the application was completed and no longer is; no other
    column of the pet is written. In every other case the pet row is left
    exactly as it was. *)
Theorem set_status_cascade now id request s a p new_status :
  is_admin_user (Request.user request) = true ->
  Request.method request = "POST"%string ->
  applications s !! id = Some a ->
  pets s !! AdoptionApplication.pet a = Some p ->
  QueryDict_get (Request.POST request) "status" = Some new_status ->
  new_status ∈ ["pending"; "approved"; "rejected"; "completed"]%string ->
  let old_status := AdoptionApplication.status a in
  let s' := store (admin_update_application_status get_status_display
                     now id request s) in
  exists p',
    pets s' !! AdoptionApplication.pet a = Some p'
    /\ (new_status = "completed"%string -> with_status "adopted" p p')
    /\ (old_status = "completed"%string -> new_status <> "completed"%string ->
        with_status "available" p p')
    /\ (old_status <> "completed"%string -> new_status <> "completed"%string ->
        p' = p).
Proof.
  intros Hadmin Hm Ha Hp Hv Hin old_status s'. subst old_status s'.
  apply status_choice_elem in Hin.
  unfold admin_update_application_status.
  rewrite staff_only_admin by done.
  rewrite (update_application_status_valid now id request s a p new_status)
    by done.
  simpl. unfold updated_store.
  destruct (String.eqb_spec new_status "completed") as [Hnew|Hnew].
  - exists (Pet.set_status "adopted" p). simpl.
    split; [apply lookup_insert_eq|]. unfold with_status. simpl.
    split_and!; done.
  - destruct (String.eqb_spec (AdoptionApplication.status a) "completed")
      as [Hold|Hold].
    + exists (Pet.set_status "available" p). simpl.
      split; [apply lookup_insert_eq|]. unfold with_status. simpl.
      split_and!; done.
    + exists p. simpl. split; [exact Hp|]. split_and!; done.
Qed.

(** C3. A status update posting a string outside the four recognized
    statuses leaves the whole store as it was (the application, its pet and
    every other row), queues the error message "Invalid status" and ends in
    the usual redirect, not in an exception. *)
Theorem set_status_invalid now id request s a v :
  is_admin_user (Request.user request) = true ->
  Request.method request = "POST"%string ->
  applications s !! id = Some a ->
  QueryDict_get (Request.POST request) "status" = Some v ->
  v ∉ ["pending"; "approved"; "rejected"; "completed"]%string ->
  let o := admin_update_application_status get_status_display now id request s in
  store o = s
  /\ applications (store o) !! id = Some a
  /\ pets (store o) !! AdoptionApplication.pet a
     = pets s !! AdoptionApplication.pet a
  /\ messages o = [(error, "Invalid status"%string)]
  /\ response o = status_redirect request id
  /\ exists to kwargs, response o = redirect to kwargs.
Proof.
  intros Hadmin Hm Ha Hv Hnot o. subst o.
  unfold admin_update_application_status.
  rewrite staff_only_admin by done.
  rewrite (update_application_status_invalid now id request s a) by
    (try done; intros w Hw; rewrite Hv in Hw; injection Hw as <-;
     by apply status_choice_false).
  simpl. repeat split; try done.
  apply status_redirect_is_redirect.
Qed.

(** C10. A request to the status update that is not a POST changes nothing
    in the store and queues no message; a staff caller is redirected as
    after an update. *)
Theorem set_status_not_post now id request s :
  is_admin_user (Request.user request) = true ->
  Request.method request <> "POST"%string ->
  let o := admin_update_application_status get_status_display now id request s in
  store o = s
  /\ messages o = []
  /\ response o = status_redirect request id
  /\ exists to kwargs, response o = redirect to kwargs.
Proof.
  intros Hadmin Hm o. subst o.
  unfold admin_update_application_status.
  rewrite staff_only_admin by done.
  unfold update_application_status.
  apply String.eqb_neq in Hm. rewrite Hm. simpl.
  repeat split. apply status_redirect_is_redirect.
Qed.

End StatusUpdate.

(** ** Completing twice *)

Section CompletingTwice.

Variable get_status_display : AdoptionApplication.t -> string.

Lemma updated_store_completed now id a p s :
  updated_store now id a p "completed" s
  = {| pets := <[AdoptionApplication.pet a := Pet.set_status "adopted" p]> (pets s);
       applications :=
         <[id := AdoptionApplication.set_status "completed" now a]>
           (applications s);
       application_seq := application_seq s |}.
Proof. reflexivity. Qed.

Lemma complete_store now id request s a p :
  is_admin_user (Request.user request) = true ->
  Request.method request = "POST"%string ->
  applications s !! id = Some a ->
  pets s !! AdoptionApplication.pet a = Some p ->
  QueryDict_get (Request.POST request) "status" = Some "completed"%string ->
  store (admin_update_application_status get_status_display now id request s)
  = updated_store now id a p "completed" s.
Proof.
  intros Hadmin Hm Ha Hp Hv.
  unfold admin_update_application_status.
  rewrite staff_only_admin by done.
  by rewrite (update_application_status_valid _ now id request s a p "completed").
Qed.

(** C5, as amended. Completing an application at time [t1] and again at
    time [t2] leaves the store that completing it once at [t2] leaves.
    Against the store after the first call alone, the second call changes
    one column: [reviewed_at] of the application moves from [t1] to [t2];
    the pets and every other application are the same. *)
Theorem set_status_completed_twice t1 t2 id request s a p :
  is_admin_user (Request.user request) = true ->
  Request.method request = "POST"%string ->
  applications s !! id = Some a ->
  pets s !! AdoptionApplication.pet a = Some p ->
  QueryDict_get (Request.POST request) "status" = Some "completed"%string ->
  let complete t st :=
    store (admin_update_application_status get_status_display t id request st) in
  complete t2 (complete t1 s) = complete t2 s
  /\ pets (complete t2 (complete t1 s)) = pets (complete t1 s)
  /\ applications (complete t1 s) !! id
     = Some (AdoptionApplication.set_status "completed" t1 a)
  /\ applications (complete t2 (complete t1 s)) !! id
     = Some (AdoptionApplication.set_status "completed" t2 a)
  /\ (forall id', id' <> id ->
        applications (complete t2 (complete t1 s)) !! id'
        = applications (complete t1 s) !! id').
Proof.
  intros Hadmin Hm Ha Hp Hv complete. subst complete. cbv beta.
  rewrite (complete_store t1 id request s a p) by done.
  rewrite (complete_store t2 id request s a p) by done.
  rewrite (complete_store t2 id request _
             (AdoptionApplication.set_status "completed" t1 a)
             (Pet.set_status "adopted" p)); try done.
  - rewrite !updated_store_completed. simpl.
    rewrite !insert_insert_eq. repeat split.
    + apply lookup_insert_eq.
    + apply lookup_insert_eq.
    + intros id' Hne. by rewrite !lookup_insert_ne.
  - rewrite updated_store_completed. simpl. apply lookup_insert_eq.
  - rewrite updated_store_completed. simpl. apply lookup_insert_eq.
Qed.

End CompletingTwice.

(** ** Notes *)

(** C8. A notes update stores the posted text in [notes] and the time of
    the request in [reviewed_at] of the application; the status and every
    other column of the application, every pet and every other application
    are as before. *)
Theorem set_notes_frame now id request s a text :
  is_admin_user (Request.user request) = true ->
  Request.method request = "POST"%string ->
  applications s !! id = Some a ->
  QueryDict_get (Request.POST request) "notes" = Some text ->
  let o := admin_update_application_notes now id request s in
  let a' := AdoptionApplication.set_notes text now a in
  applications (store o) !! id = Some a'
  /\ AdoptionApplication.notes a' = text
  /\ AdoptionApplication.reviewed_at a' = Some now
  /\ AdoptionApplication.status a' = AdoptionApplication.status a
  /\ AdoptionApplication.pet a' = AdoptionApplication.pet a
  /\ AdoptionApplication.form_columns a' = AdoptionApplication.form_columns a
  /\ pets (store o) = pets s
  /\ (forall id', id' <> id ->
        applications (store o) !! id' = applications s !! id').
Proof.
  intros Hadmin Hm Ha Ht o a'. subst o a'.
  unfold admin_update_application_notes.
  rewrite staff_only_admin by done.
  unfold update_application_notes, posted_text. rewrite Hm, Ha, Ht. simpl.
  repeat split.
  - apply lookup_insert_eq.
  - intros id' Hne. by rewrite lookup_insert_ne.
Qed.

(** ** Submissions *)

Section Submission.

Variable to_pk : string -> option Z.
Variable default_notes : string.
Variable violates : AdoptionApplication.t -> bool.

Lemma available_pet_Some pk s p :
  available_pet pk s = Some p <->
  pets s !! pk = Some p /\ Pet.status p = "available"%string.
Proof.
  unfold available_pet. destruct (pets s !! pk) as [q|].
  - destruct (String.eqb (Pet.status q) "available") eqn:E.
    + apply String.eqb_eq in E. split.
      * by intros [= <-].
      * by intros [[= <-] _].
    + apply String.eqb_neq in E. split.
      * discriminate.
      * by intros [[= <-] ?].
  - split; [discriminate | by intros [? _]].
Qed.

Lemma available_pet_None pk s p :
  pets s !! pk = Some p -> Pet.status p <> "available"%string ->
  available_pet pk s = None.
Proof.
  intros Hp Hs. destruct (available_pet pk s) as [q|] eqn:E; [|done].
  apply available_pet_Some in E as [Hq ?]. congruence.
Qed.

Lemma truthy_pk_Some pk : pk <> 0 -> truthy_pk (Some pk) = true.
Proof. intros H. unfold truthy_pk. by apply negb_true_iff, Z.eqb_neq. Qed.

(** Whatever the request, the view either leaves the store alone or creates
    one application for an available pet. *)
Lemma submit_application_cases now pet_id request s :
  let o := submit_application to_pk default_notes violates now pet_id request s in
  store o = s
  \/ exists pk p,
       available_pet pk s = Some p
       /\ o = create_and_redirect to_pk default_notes violates now request pk p s.
Proof.
  unfold submit_application.
  destruct (truthy_pk pet_id) eqn:Et.
  - destruct pet_id as [pk|]; [|done]. simpl.
    destruct (available_pet pk s) as [p|] eqn:Ep; simpl; [|by left].
    destruct (String.eqb _ _); [|by left].
    right. eauto.
  - assert (Hnone :
        match pet_id with
        | Some pk => @None (Z * Pet.t)
        | None => None
        end = None) by (by destruct pet_id).
    rewrite Hnone. simpl.
    destruct (String.eqb _ _); [|by left].
    destruct (QueryDict_get _ _) as [v|]; [|by left].
    destruct (truthy_str v); [|by left].
    destruct (to_pk v) as [pk|]; [|by left].
    destruct (available_pet pk s) as [p|] eqn:Ep; [|by left].
    right. eauto.
Qed.

Lemma submit_application_available now pet_id request s pk p :
  Request.method request = "POST"%string ->
  available_pet pk s = Some p ->
  submission_for to_pk pk pet_id request ->
  submit_application to_pk default_notes violates now pet_id request s
  = create_and_redirect to_pk default_notes violates now request pk p s.
Proof.
  intros Hm Hp [[-> Hne] | (Hf & v & Hv & Ht & Hpk)]; unfold submit_application.
  - rewrite truthy_pk_Some by done. rewrite Hp, Hm. reflexivity.
  - rewrite Hf, Hm, Hv, Ht, Hpk, Hp. simpl. by destruct pet_id.
Qed.

Lemma submit_application_unavailable now pet_id request s pk p :
  Request.method request = "POST"%string ->
  pets s !! pk = Some p ->
  Pet.status p <> "available"%string ->
  submission_for to_pk pk pet_id request ->
  let o := submit_application to_pk default_notes violates now pet_id request s in
  store o = s
  /\ messages o = [(error, refusal pet_id)]
  /\ exists to kwargs, response o = redirect to kwargs.
Proof.
  intros Hm Hp Hs Hfor. pose proof (available_pet_None pk s p Hp Hs) as Hnone.
  destruct Hfor as [[-> Hne] | (Hf & v & Hv & Ht & Hpk)];
    unfold submit_application, refusal.
  - rewrite truthy_pk_Some by done. rewrite Hnone. simpl. eauto.
  - rewrite Hf, Hm, Hv, Ht, Hpk, Hnone. simpl.
    destruct pet_id; simpl; eauto.
Qed.

(** A row that [objects.create] saves is the row of the form. *)
Lemma objects_create_saved now user pk form a :
  objects_create to_pk default_notes violates now user pk form = Saved a ->
  exists adults children,
    a = new_application default_notes now user pk form adults children.
Proof.
  unfold objects_create.
  destruct (to_int to_pk _) as [adults|]; [|done].
  destruct (to_int to_pk _) as [children|]; [|done].
  destruct (violates _); [done|]. intros [= <-]. eauto.
Qed.

Lemma accepted_saved now pk request :
  accepted to_pk default_notes violates now pk request ->
  exists a,
    objects_create to_pk default_notes violates now
      (user_fk (Request.user request)) pk (Request.POST request) = Saved a.
Proof.
  unfold accepted. destruct (objects_create _ _ _ _ _ _ _) as [a|]; [eauto|done].
Qed.

Lemma create_and_redirect_saved now request pk p s a :
  objects_create to_pk default_notes violates now
    (user_fk (Request.user request)) pk (Request.POST request) = Saved a ->
  store (create_and_redirect to_pk default_notes violates now request pk p s)
  = file_application a s.
Proof. intros H. unfold create_and_redirect. by rewrite H. Qed.

(** Whatever the request, the view leaves the store alone or files one row
    that [objects.create] saved for an available pet. *)
Lemma submit_application_stores now pet_id request s :
  let o := submit_application to_pk default_notes violates now pet_id request s in
  store o = s
  \/ exists pk p a,
       available_pet pk s = Some p
       /\ objects_create to_pk default_notes violates now
            (user_fk (Request.user request)) pk (Request.POST request)
          = Saved a
       /\ store o = file_application a s.
Proof.
  destruct (submit_application_cases now pet_id request s)
    as [Hsame | (pk & p & Hp & Hcreate)]; [by left|].
  cbv zeta. rewrite Hcreate.
  destruct (objects_create to_pk default_notes violates now
              (user_fk (Request.user request)) pk (Request.POST request))
    as [a|exc] eqn:Hc.
  - right. exists pk, p, a. split_and!; try done.
    by apply create_and_redirect_saved.
  - left. unfold create_and_redirect. by rewrite Hc.
Qed.

(** C4. A submission naming a pet that is on file but not available creates
    no application: the store is left as it was, an error message is queued
    and the applicant is redirected. *)
Theorem submit_pet_unavailable now pet_id request s pk p :
  is_authenticated (Request.user request) = true ->
  Request.method request = "POST"%string ->
  pets s !! pk = Some p ->
  Pet.status p <> "available"%string ->
  submission_for to_pk pk pet_id request ->
  let o := adoption_application to_pk default_notes violates now pet_id request s in
  store o = s
  /\ applications (store o) = applications s
  /\ messages o = [(error, refusal pet_id)]
  /\ exists to kwargs, response o = redirect to kwargs.
Proof.
  intros Hauth Hm Hp Hs Hfor o. subst o.
  unfold adoption_application, login_required, user_passes_test.
  rewrite Hauth.
  destruct (submit_application_unavailable now pet_id request s pk p)
    as (Hstore & Hmsg & Hresp); try done.
  by rewrite Hstore.
Qed.


(** C9. The application created by a successful submission (an
    authenticated POST naming an available pet, with a form the database
    accepts) is pending, has the time of the request as its submission time
    and has not been reviewed. *)
Theorem submit_initial_state now pet_id request s pk p :
  is_authenticated (Request.user request) = true ->
  Request.method request = "POST"%string ->
  available_pet pk s = Some p ->
  submission_for to_pk pk pet_id request ->
  accepted to_pk default_notes violates now pk request ->
  let o := adoption_application to_pk default_notes violates now pet_id request s in
  exists id a,
    applications s !! id = None
    /\ applications (store o) = <[id := a]> (applications s)
    /\ AdoptionApplication.pet a = pk
    /\ AdoptionApplication.status a = "pending"%string
    /\ AdoptionApplication.submitted_at a = now
    /\ AdoptionApplication.reviewed_at a = None.
Proof.
  intros Hauth Hm Hp Hfor Hacc o. subst o.
  unfold adoption_application, login_required, user_passes_test.
  rewrite Hauth.
  rewrite (submit_application_available now pet_id request s pk p) by done.
  destruct (accepted_saved now pk request Hacc) as (a & Ha).
  rewrite (create_and_redirect_saved now request pk p s a Ha).
  exists (new_application_id s), a.
  split; [apply new_application_id_fresh|].
  apply objects_create_saved in Ha as (adults & children & ->).
  simpl. repeat split.
Qed.

End Submission.

(** ** Sequences of operations *)

Section Sequences.

Variable get_status_display : AdoptionApplication.t -> string.
Variable to_pk : string -> option Z.
Variable default_notes : string.
Variable violates : AdoptionApplication.t -> bool.

#[local] Abbreviation run := (perform get_status_display to_pk default_notes violates).
#[local] Abbreviation run_all :=
  (perform_all get_status_display to_pk default_notes violates).

Lemma perform_all_cons op ops s :
  run_all (op :: ops) s = run_all ops (run s op).
Proof. reflexivity. Qed.

(** One successful submission: the pets are untouched and one application
    for the pet is added under a new key. *)
Lemma perform_submit pk p op s :
  available_pet pk s = Some p ->
  submits_for to_pk default_notes violates pk op ->
  exists a,
    run s op = file_application a s
    /\ AdoptionApplication.pet a = pk.
Proof.
  intros Hp Hop. destruct op as [now pet_id request| |]; try done.
  destruct Hop as (Hauth & Hm & Hfor & Hacc).
  unfold perform, handle, adoption_application,
    login_required, user_passes_test.
  rewrite Hauth.
  rewrite (submit_application_available _ _ _ now pet_id request s pk p)
    by done.
  destruct (accepted_saved _ _ _ now pk request Hacc) as (a & Ha).
  rewrite (create_and_redirect_saved _ _ _ now request pk p s a Ha).
  exists a. split; [done|].
  by apply objects_create_saved in Ha as (adults & children & ->).
Qed.

(** C7. Successful submissions for an available pet (authenticated POSTs
    naming the pet, with forms the database accepts) leave the pet row, and
    every other pet, exactly as it was, so the pet is still available; after
    any number of them every earlier application is still on file and each
    submission has added one application for the pet. *)
Theorem submit_keeps_pet_available pk p ops s :
  pets s !! pk = Some p ->
  Pet.status p = "available"%string ->
  Forall (submits_for to_pk default_notes violates pk) ops ->
  let s' := run_all ops s in
  pets s' = pets s
  /\ pets s' !! pk = Some p
  /\ applications s ⊆ applications s'
  /\ size (applications s') = (size (applications s) + length ops)%nat
  /\ (forall id a,
        applications s' !! id = Some a -> applications s !! id = None ->
        AdoptionApplication.pet a = pk).
Proof.
  intros Hp Hav Hops. cbv zeta. revert s Hp.
  induction Hops as [|op ops Hop _ IH]; intros s Hp.
  - simpl. split_and!; try done.
    intros id a H1 H2. congruence.
  - rewrite perform_all_cons.
    destruct (perform_submit pk p op s) as (a & Hstep & Hpet);
      [by apply available_pet_Some | done |].
    pose proof (new_application_id_fresh s) as Hfresh.
    rewrite Hstep.
    destruct (IH (file_application a s))
      as (IHpets & IHpet & IHsub & IHsize & IHnew); [exact Hp|].
    simpl in *.
    split_and!; try done.
    + etrans; [|exact IHsub]. by apply insert_subseteq.
    + rewrite IHsize, map_size_insert_None by done. simpl. lia.
    + intros id b Hb Hnone.
      destruct (decide (id = new_application_id s)) as [->|Hne].
      * assert (Hkeep : <[new_application_id s := a]> (applications s)
                        !! new_application_id s = Some a)
          by apply lookup_insert_eq.
        pose proof (lookup_weaken _ _ _ _ Hkeep IHsub) as Hb'.
        rewrite Hb in Hb'. by injection Hb' as ->.
      * apply (IHnew id b Hb). by rewrite lookup_insert_ne.
Qed.

(** *** The rule "adopted only if completed" *)

Lemma completed_survives s id a' pk :
  has_completed_application s pk ->
  (forall a, applications s !! id = Some a ->
             completed_for pk id a -> completed_for pk id a') ->
  has_completed_application (save_application id a' s) pk.
Proof.
  intros (j & b & Hj & Hb)%map_Exists_lookup Hrep.
  apply map_Exists_lookup. simpl.
  destruct (decide (j = id)) as [->|Hne].
  - exists id, a'. split; [apply lookup_insert_eq|]. by apply (Hrep b).
  - exists j, b. by rewrite lookup_insert_ne.
Qed.

Lemma completed_fresh s a pk :
  has_completed_application s pk ->
  has_completed_application (file_application a s) pk.
Proof.
  intros H.
  change (has_completed_application
            (save_application (new_application_id s) a s) pk).
  apply completed_survives; [done|].
  intros b Hb. by rewrite new_application_id_fresh in Hb.
Qed.

Lemma set_notes_preserves now id request s :
  adopted_only_if_completed s ->
  adopted_only_if_completed
    (store (admin_update_application_notes now id request s)).
Proof.
  intros Hinv. unfold admin_update_application_notes.
  destruct (is_admin_user (Request.user request)) eqn:Hadmin;
    [rewrite staff_only_admin by done | by rewrite staff_only_other].
  unfold update_application_notes.
  destruct (String.eqb (Request.method request) "POST"); [|done].
  destruct (applications s !! id) as [a|] eqn:Ha; [|done].
  simpl. intros pk q Hq Had. simpl in Hq.
  apply completed_survives; [by apply (Hinv pk q)|].
  intros b Hb Hc. by replace b with a in Hc by congruence.
Qed.

Lemma submit_preserves now pet_id request s :
  adopted_only_if_completed s ->
  adopted_only_if_completed
    (store (adoption_application to_pk default_notes violates now pet_id request s)).
Proof.
  intros Hinv. unfold adoption_application, login_required, user_passes_test.
  destruct (is_authenticated (Request.user request)); [|done].
  destruct (submit_application_stores to_pk default_notes violates
              now pet_id request s)
    as [Hsame | (pk & p & a & _ & _ & Hcreate)].
  - by rewrite Hsame.
  - rewrite Hcreate.
    intros pk' q Hq Had. simpl in Hq.
    apply completed_fresh. by apply (Hinv pk' q).
Qed.

Lemma set_status_preserves now id request s :
  adopted_only_if_completed s ->
  adopted_only_if_completed
    (store (admin_update_application_status get_status_display
              now id request s)).
Proof.
  intros Hinv. unfold admin_update_application_status.
  destruct (is_admin_user (Request.user request)) eqn:Hadmin;
    [rewrite staff_only_admin by done | by rewrite staff_only_other].
  unfold update_application_status.
  destruct (String.eqb (Request.method request) "POST"); [|done].
  destruct (applications s !! id) as [a|] eqn:Ha; [|done].
  destruct (QueryDict_get _ _) as [v|]; [|done].
  destruct (status_choice v); [|done].
  cbv zeta.
  set (a' := AdoptionApplication.set_status v now a).
  set (s1 := save_application id a' s).
  assert (Hs1 : adopted_only_if_completed s1 \/
                (v <> "completed"%string
                 /\ AdoptionApplication.status a = "completed"%string)).
  { destruct (String.eqb_spec v "completed") as [->|Hv].
    - left. intros pk q Hq Had.
      apply completed_survives; [by apply (Hinv pk q)|].
      intros b Hb [Hpet _]. replace b with a in Hpet by congruence.
      by split.
    - destruct (String.eqb_spec (AdoptionApplication.status a) "completed")
        as [Hold|Hold]; [by right|].
      left. intros pk q Hq Had.
      apply completed_survives; [by apply (Hinv pk q)|].
      intros b Hb [_ Hst]. by replace b with a in Hst by congruence. }
  destruct (String.eqb_spec v "completed") as [->|Hv].
  - destruct Hs1 as [Hs1|[? _]]; [|done].
    unfold cascade. change (pets s1) with (pets s).
    destruct (pets s !! AdoptionApplication.pet a') as [p|] eqn:Hp;
      [|exact Hs1].
    simpl. intros pk q Hq Had. simpl in Hq.
    destruct (decide (pk = AdoptionApplication.pet a)) as [->|Hne].
    + apply map_Exists_lookup. exists id, a'. simpl.
      by rewrite lookup_insert_eq.
    + rewrite lookup_insert_ne in Hq by done. by apply (Hs1 pk q).
  - destruct (String.eqb_spec (AdoptionApplication.status a) "completed")
      as [Hold|Hold]; simpl.
    + unfold cascade. change (pets s1) with (pets s).
      destruct (pets s !! AdoptionApplication.pet a') as [p|] eqn:Hp; simpl.
      * intros pk q Hq Had. simpl in Hq.
        destruct (decide (pk = AdoptionApplication.pet a)) as [->|Hne].
        { rewrite lookup_insert_eq in Hq. injection Hq as <-. done. }
        rewrite lookup_insert_ne in Hq by done.
        apply completed_survives; [by apply (Hinv pk q)|].
        intros b Hb [Hpet _]. by replace b with a in Hpet by congruence.
      * intros pk q Hq Had. simpl in Hq.
        apply completed_survives; [by apply (Hinv pk q)|].
        intros b Hb [Hpet _]. replace b with a in Hpet by congruence.
        subst pk. simpl in Hp. congruence.
    + by destruct Hs1 as [Hs1|[_ ?]].
Qed.

Lemma perform_preserves op s :
  adopted_only_if_completed s -> adopted_only_if_completed (run s op).
Proof.
  intros Hinv. destruct op; unfold perform, handle.
  - by apply submit_preserves.
  - by apply set_status_preserves.
  - by apply set_notes_preserves.
Qed.

(** X26. Through every sequence of submissions, status updates and notes
    updates, reverting updates included, a pet is adopted only if an
    application for it is completed. *)
Theorem adopted_only_if_completed_invariant ops s :
  adopted_only_if_completed s ->
  adopted_only_if_completed (run_all ops s).
Proof.
  revert s. induction ops as [|op ops IH]; intros s Hinv; [done|].
  rewrite perform_all_cons. by apply IH, perform_preserves.
Qed.

End Sequences.

(** * The properties on the sample shelter *)

(** A repeated form field reads as its last value, an absent one as None. *)
Example QueryDict_get_last :
  QueryDict_get [("status", "approved"); ("status", "completed")]%string
                "status" = Some "completed"%string
  /\ QueryDict_get [("notes", "x")]%string "status" = None.
Proof. split; reflexivity. Qed.

(** The referer decides where the status update redirects to. *)
Example status_redirect_by_referer :
  status_redirect get_page 1
  = redirect "admin_application_detail" [("application_id"%string, IntArg 1)]
  /\ status_redirect (post_status "approved") 1
     = redirect "admin_applications" [].
Proof. split; reflexivity. Qed.

(** The next application of the sample shelter gets key 3; had the
    database already given out key 5 (for a row deleted since), it would
    get key 6. *)
Example new_application_id_shelter0 :
  new_application_id shelter0 = 3
  /\ new_application_id
       {| pets := pets shelter0; applications := applications shelter0;
          application_seq := 5 |} = 6.
Proof. split; by vm_compute. Qed.

(** A form whose number of adults is not a number, or that lacks the name
    of the applicant, files nothing. *)
Example objects_create_raises :
  objects_create decimal EmptyString lacks_applicant 300 (Some 9) 1
    [("first_name", "Cy"); ("last_name", "Doe"); ("email", "cy@example.com");
     ("household_adults", "lots")]%string
  = Raised "ValueError"
  /\ objects_create decimal EmptyString lacks_applicant 300 (Some 9) 1 []
     = Raised "IntegrityError".
Proof. split; reflexivity. Qed.

(** Luna adopted (status completed), then freed again (status rejected). *)
Example complete_then_reject :
  let completed :=
    store (admin_update_application_status status_label 200 1
             (post_status "completed") shelter0) in
  let rejected :=
    store (admin_update_application_status status_label 201 1
             (post_status "rejected") completed) in
  Pet.status <$> pets completed !! 1 = Some "adopted"%string
  /\ Pet.status <$> pets rejected !! 1 = Some "available"%string.
Proof. split; by vm_compute. Qed.

(** Ann's application as first filed. *)
Lemma shelter0_ann :
  applications shelter0 !! 1
  = Some (pending_application 7 "Ann" "ann@example.com" 100).
Proof. by vm_compute. Qed.

Lemma shelter0_luna : pets shelter0 !! 1 = Some luna.
Proof. by vm_compute. Qed.

(** Completing Ann's application adopts Luna. *)
Lemma set_status_cascade_witness :
  Pet.status
    <$> pets (store (admin_update_application_status status_label 200 1
                       (post_status "completed") shelter0)) !! 1
  = Some "adopted"%string.
Proof.
  destruct (set_status_cascade status_label 200 1 (post_status "completed")
              shelter0 (pending_application 7 "Ann" "ann@example.com" 100)
              luna "completed") as (p' & Hrow & Hadopt & _ & _).
  - reflexivity.
  - reflexivity.
  - exact shelter0_ann.
  - exact shelter0_luna.
  - reflexivity.
  - compute_done.
  - destruct (Hadopt eq_refl) as (Hstatus & _).
    change (AdoptionApplication.pet
              (pending_application 7 "Ann" "ann@example.com" 100))
      with 1 in Hrow.
    rewrite Hrow. simpl. by rewrite Hstatus.
Defined.

(** Posting the status "archived" is refused. *)
Lemma set_status_invalid_witness :
  let o := admin_update_application_status status_label 200 1
             (post_status "archived") shelter0 in
  store o = shelter0
  /\ messages o = [(error, "Invalid status"%string)]
  /\ response o = redirect "admin_applications" [].
Proof.
  destruct (set_status_invalid status_label 200 1 (post_status "archived")
              shelter0 (pending_application 7 "Ann" "ann@example.com" 100)
              "archived") as (Hstore & _ & _ & Hmsg & Hresp & _).
  - reflexivity.
  - reflexivity.
  - by vm_compute.
  - reflexivity.
  - compute_done.
  - split_and!; [exact Hstore | exact Hmsg | ].
    rewrite Hresp. reflexivity.
Defined.

(** Following a link to the status update changes nothing. *)
Lemma set_status_not_post_witness :
  let o := admin_update_application_status status_label 200 1
             get_page shelter0 in
  store o = shelter0
  /\ response o
     = redirect "admin_application_detail"
         [("application_id"%string, IntArg 1)].
Proof.
  destruct (set_status_not_post status_label 200 1 get_page shelter0)
    as (Hstore & _ & Hresp & _).
  - reflexivity.
  - discriminate.
  - split; [exact Hstore|]. rewrite Hresp. reflexivity.
Defined.

(** Completing Ann's application at 200 and again at 300 is not the same as
    completing it at 200 alone: the review time has moved. *)
Lemma completed_twice_moves_review_time :
  let once :=
    store (admin_update_application_status status_label 200 1
             (post_status "completed") shelter0) in
  let twice :=
    store (admin_update_application_status status_label 300 1
             (post_status "completed") once) in
  applications twice !! 1 <> applications once !! 1
  /\ AdoptionApplication.reviewed_at <$> applications once !! 1
     = Some (Some 200)
  /\ AdoptionApplication.reviewed_at <$> applications twice !! 1
     = Some (Some 300).
Proof.
  cbv zeta. split_and!.
  - intros H. apply (f_equal (fmap AdoptionApplication.reviewed_at)) in H.
    vm_compute in H. discriminate.
  - by vm_compute.
  - by vm_compute.
Qed.

(** Completing Ann's application at 200 and again at 300 leaves the store
    of completing it once at 300. *)
Lemma set_status_completed_twice_witness :
  let complete t st :=
    store (admin_update_application_status status_label t 1
             (post_status "completed") st) in
  complete 300 (complete 200 shelter0) = complete 300 shelter0
  /\ pets (complete 300 (complete 200 shelter0))
     = pets (complete 200 shelter0).
Proof.
  destruct (set_status_completed_twice status_label 200 300 1
              (post_status "completed") shelter0
              (pending_application 7 "Ann" "ann@example.com" 100) luna)
    as (Hsame & Hpets & _).
  - reflexivity.
  - reflexivity.
  - exact shelter0_ann.
  - exact shelter0_luna.
  - reflexivity.
  - split; [exact Hsame | exact Hpets].
Defined.

(** Staff notes on Ann's application. *)
Lemma set_notes_frame_witness :
  let o := admin_update_application_notes 250 1
             (post_notes "Called references") shelter0 in
  AdoptionApplication.notes <$> applications (store o) !! 1
  = Some "Called references"%string
  /\ pets (store o) = pets shelter0
  /\ applications (store o) !! 2 = applications shelter0 !! 2.
Proof.
  destruct (set_notes_frame 250 1 (post_notes "Called references") shelter0
              (pending_application 7 "Ann" "ann@example.com" 100)
              "Called references")
    as (Hrow & _ & _ & _ & _ & _ & Hpets & Hothers).
  - reflexivity.
  - reflexivity.
  - by vm_compute.
  - reflexivity.
  - split_and!; [by rewrite Hrow | exact Hpets | by apply Hothers].
Defined.

(** An application for Luna once she is adopted is turned away. *)
Lemma submit_pet_unavailable_witness :
  let o := adoption_application decimal EmptyString lacks_applicant 300 (Some 1)
             (post_form adopter "Cy" "cy@example.com") shelter_adopted in
  store o = shelter_adopted
  /\ messages o = [(error, "Pet not found or no longer available."%string)].
Proof.
  destruct (submit_pet_unavailable decimal EmptyString lacks_applicant 300 (Some 1)
              (post_form adopter "Cy" "cy@example.com") shelter_adopted
              1 (Pet.set_status "adopted" luna))
    as (Hstore & _ & Hmsg & _).
  - reflexivity.
  - reflexivity.
  - by vm_compute.
  - discriminate.
  - left. by split.
  - split; [exact Hstore | exact Hmsg].
Defined.



(** The application a third account files for Luna starts out pending. *)
Lemma submit_initial_state_witness :
  let o := adoption_application decimal EmptyString lacks_applicant 300 (Some 1)
             (post_form (Account 9 false false) "Cy" "cy@example.com")
             shelter0 in
  exists id a,
    applications shelter0 !! id = None
    /\ applications (store o) = <[id := a]> (applications shelter0)
    /\ AdoptionApplication.pet a = 1
    /\ AdoptionApplication.status a = "pending"%string
    /\ AdoptionApplication.submitted_at a = 300
    /\ AdoptionApplication.reviewed_at a = None.
Proof.
  apply (submit_initial_state decimal EmptyString lacks_applicant 300 (Some 1)
           (post_form (Account 9 false false) "Cy" "cy@example.com")
           shelter0 1 luna).
  - reflexivity.
  - reflexivity.
  - by vm_compute.
  - left. by split.
  - reflexivity.
Defined.

Lemma submit_keeps_pet_available_witness :
  let s' := perform_all status_label decimal EmptyString lacks_applicant
              two_submissions shelter0 in
  pets s' !! 1 = Some luna
  /\ applications shelter0 ⊆ applications s'
  /\ size (applications s') = 4%nat.
Proof.
  destruct (submit_keeps_pet_available status_label decimal EmptyString lacks_applicant
              1 luna two_submissions shelter0)
    as (_ & Hluna & Hkept & Hsize & _).
  - by vm_compute.
  - reflexivity.
  - apply List.Forall_cons; [|apply List.Forall_cons; [|apply List.Forall_nil]].
    + split_and!; [reflexivity | reflexivity | left; by split | reflexivity].
    + split_and!; [reflexivity | reflexivity | | reflexivity].
      right. split; [reflexivity|].
      exists "1"%string. by split_and!.
  - split_and!; [exact Hluna | exact Hkept | exact Hsize].
Defined.


(** * Further properties of the workflow views *)

(** ** Access and missing rows *)

Section Access.

Variable get_status_display : AdoptionApplication.t -> string.

(** X1. An account that is not staff or superuser, and a visitor who is not
    logged in, cannot change anything through the two staff views on
    applications: the store is returned as it was, no message is queued and
    the caller is sent to the login page. *)
Theorem staff_views_refuse_others now id request s :
  is_admin_user (Request.user request) = false ->
  admin_update_application_status get_status_display now id request s
  = mkOutcome s [] redirect_to_login
  /\ admin_update_application_notes now id request s
     = mkOutcome s [] redirect_to_login.
Proof.
  intros H. split.
  - unfold admin_update_application_status. by apply staff_only_other.
  - unfold admin_update_application_notes. by apply staff_only_other.
Qed.

(** X2. A staff POST to either view for an application that is not on file
    ends in Http404 and changes nothing. *)
Theorem unknown_application_not_found now id request s :
  is_admin_user (Request.user request) = true ->
  Request.method request = "POST"%string ->
  applications s !! id = None ->
  admin_update_application_status get_status_display now id request s
  = mkOutcome s [] Http404
  /\ admin_update_application_notes now id request s
     = mkOutcome s [] Http404.
Proof.
  intros Hadmin Hm Hnone. split.
  - unfold admin_update_application_status.
    rewrite staff_only_admin by done.
    unfold update_application_status. by rewrite Hm, Hnone.
  - unfold admin_update_application_notes.
    rewrite staff_only_admin by done.
    unfold update_application_notes. by rewrite Hm, Hnone.
Qed.

(** X3. A staff POST to the status view that carries no status field at all
    is handled like an unrecognized status: nothing changes and the error
    message is queued. *)
Theorem missing_status_field_invalid now id request s a :
  is_admin_user (Request.user request) = true ->
  Request.method request = "POST"%string ->
  applications s !! id = Some a ->
  QueryDict_get (Request.POST request) "status" = None ->
  admin_update_application_status get_status_display now id request s
  = mkOutcome s [(error, "Invalid status"%string)]
      (status_redirect request id).
Proof.
  intros Hadmin Hm Ha Hv.
  unfold admin_update_application_status.
  rewrite staff_only_admin by done.
  unfold update_application_status. by rewrite Hm, Ha, Hv.
Qed.

(** The store after a status update with a recognized status: the
    application is saved, then its pet if the cascade applies and the pet
    is on file. *)
Lemma recognized_status_store now id request s a v :
  Request.method request = "POST"%string ->
  applications s !! id = Some a ->
  QueryDict_get (Request.POST request) "status" = Some v ->
  status_choice v = true ->
  let s' := store (update_application_status get_status_display
                     now id request s) in
  let s1 := save_application id (AdoptionApplication.set_status v now a) s in
  s' = s1
  \/ exists p st,
       pets s !! AdoptionApplication.pet a = Some p
       /\ (st = "adopted"%string \/ st = "available"%string)
       /\ s' = save_pet (AdoptionApplication.pet a) (Pet.set_status st p) s1.
Proof.
  intros Hm Ha Hv Hc. unfold update_application_status.
  rewrite Hm, Ha, Hv, Hc. cbv zeta.
  destruct (String.eqb v "completed").
  - unfold cascade. simpl.
    destruct (pets s !! AdoptionApplication.pet a) as [p|] eqn:Hp; simpl;
      [|by left].
    right. exists p, "adopted"%string. eauto.
  - destruct (String.eqb (AdoptionApplication.status a) "completed"); simpl;
      [|by left].
    unfold cascade. simpl.
    destruct (pets s !! AdoptionApplication.pet a) as [p|] eqn:Hp; simpl;
      [|by left].
    right. exists p, "available"%string. eauto.
Qed.

(** The store after the status view, whatever the request. *)
Lemma admin_update_application_status_store now id request s :
  let s' := store (admin_update_application_status get_status_display
                     now id request s) in
  s' = s
  \/ exists a v,
       applications s !! id = Some a
       /\ status_choice v = true
       /\ let s1 := save_application id
                      (AdoptionApplication.set_status v now a) s in
          s' = s1
          \/ exists p st,
               pets s !! AdoptionApplication.pet a = Some p
               /\ (st = "adopted"%string \/ st = "available"%string)
               /\ s' = save_pet (AdoptionApplication.pet a)
                         (Pet.set_status st p) s1.
Proof.
  cbv zeta. unfold admin_update_application_status.
  destruct (is_admin_user (Request.user request)) eqn:Hadmin;
    [rewrite staff_only_admin by done | left; by rewrite staff_only_other].
  destruct (String.eqb (Request.method request) "POST") eqn:Hm;
    [apply String.eqb_eq in Hm
    | left; unfold update_application_status; by rewrite Hm].
  destruct (applications s !! id) as [a|] eqn:Ha;
    [| left; unfold update_application_status; by rewrite Hm, Ha].
  destruct (QueryDict_get (Request.POST request) "status") as [v|] eqn:Hv;
    [| left; unfold update_application_status; by rewrite Hm, Ha, Hv].
  destruct (status_choice v) eqn:Hc;
    [| left; unfold update_application_status; by rewrite Hm, Ha, Hv, Hc].
  right. exists a, v. split_and!; try done.
  by apply recognized_status_store.
Qed.

(** X4. A status update with a recognized status writes [status] and
    [reviewed_at] of the one application; its notes and form columns, every
    other application and every pet but the application's own are as
    before. *)
Theorem set_status_frame now id request s a v :
  is_admin_user (Request.user request) = true ->
  Request.method request = "POST"%string ->
  applications s !! id = Some a ->
  QueryDict_get (Request.POST request) "status" = Some v ->
  v ∈ ["pending"; "approved"; "rejected"; "completed"]%string ->
  let s' := store (admin_update_application_status get_status_display
                     now id request s) in
  let a' := AdoptionApplication.set_status v now a in
  applications s' !! id = Some a'
  /\ AdoptionApplication.status a' = v
  /\ AdoptionApplication.reviewed_at a' = Some now
  /\ AdoptionApplication.notes a' = AdoptionApplication.notes a
  /\ AdoptionApplication.form_columns a' = AdoptionApplication.form_columns a
  /\ (forall id', id' <> id -> applications s' !! id' = applications s !! id')
  /\ (forall pk, pk <> AdoptionApplication.pet a ->
        pets s' !! pk = pets s !! pk).
Proof.
  intros Hadmin Hm Ha Hv Hin s' a'. subst s' a'.
  apply status_choice_elem in Hin.
  unfold admin_update_application_status.
  rewrite staff_only_admin by done.
  destruct (recognized_status_store now id request s a v)
    as [-> | (p & st & _ & _ & ->)]; try done; simpl.
  - split_and!; try done.
    + apply lookup_insert_eq.
    + intros id' Hne. by rewrite lookup_insert_ne.
  - split_and!; try done.
    + apply lookup_insert_eq.
    + intros id' Hne. by rewrite lookup_insert_ne.
    + intros pk Hne. by rewrite lookup_insert_ne.
Qed.

(** The store after the status view, as a function of the request. *)
Lemma admin_update_application_status_settled now id request s :
  store (admin_update_application_status get_status_display now id request s)
  = if staff_post request then
      match applications s !! id, posted_status request with
      | Some a, Some v => settled now id a v s
      | _, _ => s
      end
    else s.
Proof.
  unfold admin_update_application_status, staff_post, posted_status.
  destruct (is_admin_user (Request.user request)) eqn:Hadmin;
    [rewrite staff_only_admin by done | by rewrite staff_only_other].
  unfold update_application_status. simpl.
  destruct (String.eqb (Request.method request) "POST"); [|done].
  destruct (applications s !! id) as [a|] eqn:Ha; [|done].
  destruct (QueryDict_get _ _) as [v|]; [|done].
  destruct (status_choice v); [|done].
  unfold settled, cascade. cbv zeta. simpl.
  destruct (String.eqb v "completed").
  - by destruct (pets s !! AdoptionApplication.pet a).
  - destruct (String.eqb (AdoptionApplication.status a) "completed"); simpl;
      by destruct (pets s !! AdoptionApplication.pet a).
Qed.

End Access.

(** The store after the notes view, as a function of the request. *)
Lemma admin_update_application_notes_noted now id request s :
  store (admin_update_application_notes now id request s)
  = if staff_post request then
      match applications s !! id with
      | Some a =>
          save_application id
            (AdoptionApplication.set_notes
               (posted_text (Request.POST request) "notes") now a) s
      | None => s
      end
    else s.
Proof.
  unfold admin_update_application_notes, staff_post.
  destruct (is_admin_user (Request.user request)) eqn:Hadmin;
    [rewrite staff_only_admin by done | by rewrite staff_only_other].
  unfold update_application_notes. simpl.
  destruct (String.eqb (Request.method request) "POST"); [|done].
  by destruct (applications s !! id).
Qed.

Lemma settled_applications now id a v s :
  applications (settled now id a v s)
  = <[id := AdoptionApplication.set_status v now a]> (applications s).
Proof.
  unfold settled. cbv zeta.
  destruct (pets s !! AdoptionApplication.pet a); [|done].
  destruct (String.eqb v "completed"); [done|].
  by destruct (String.eqb (AdoptionApplication.status a) "completed").
Qed.

Lemma settled_pets now id a v s :
  pets (settled now id a v s)
  = match pets s !! AdoptionApplication.pet a with
    | Some p =>
        if String.eqb v "completed" then
          <[AdoptionApplication.pet a := Pet.set_status "adopted" p]> (pets s)
        else if String.eqb (AdoptionApplication.status a) "completed" then
          <[AdoptionApplication.pet a := Pet.set_status "available" p]> (pets s)
        else pets s
    | None => pets s
    end.
Proof.
  unfold settled. cbv zeta.
  destruct (pets s !! AdoptionApplication.pet a); [|done].
  destruct (String.eqb v "completed"); [done|].
  by destruct (String.eqb (AdoptionApplication.status a) "completed").
Qed.

Lemma settled_seq now id a v s :
  application_seq (settled now id a v s) = application_seq s.
Proof.
  unfold settled. cbv zeta.
  destruct (pets s !! AdoptionApplication.pet a); [|done].
  destruct (String.eqb v "completed"); [done|].
  by destruct (String.eqb (AdoptionApplication.status a) "completed").
Qed.

Lemma store_eq (s s' : Store) :
  pets s = pets s' -> applications s = applications s' ->
  application_seq s = application_seq s' -> s = s'.
Proof. destruct s, s'. simpl. by intros -> -> ->. Qed.

(** ** How the staff views compose *)

Section Composition.

Variable get_status_display : AdoptionApplication.t -> string.

(** X5. Completing an application and then giving it any of the other three
    statuses leaves its pet with the status available, whatever the status
    of the pet was before, and with its other columns; if the pet was
    available to begin with, the pets are exactly as at the start. *)
Theorem complete_then_revert t1 t2 id request1 request2 s a p v :
  staff_post request1 = true ->
  staff_post request2 = true ->
  applications s !! id = Some a ->
  pets s !! AdoptionApplication.pet a = Some p ->
  QueryDict_get (Request.POST request1) "status" = Some "completed"%string ->
  QueryDict_get (Request.POST request2) "status" = Some v ->
  v ∈ ["pending"; "approved"; "rejected"]%string ->
  let s1 := store (admin_update_application_status get_status_display
                     t1 id request1 s) in
  let s2 := store (admin_update_application_status get_status_display
                     t2 id request2 s1) in
  Pet.status <$> pets s1 !! AdoptionApplication.pet a = Some "adopted"%string
  /\ (exists p', pets s2 !! AdoptionApplication.pet a = Some p'
                 /\ with_status "available" p p')
  /\ (forall pk, pk <> AdoptionApplication.pet a ->
        pets s2 !! pk = pets s !! pk)
  /\ (Pet.status p = "available"%string -> pets s2 = pets s)
  /\ AdoptionApplication.status <$> applications s2 !! id = Some v.
Proof.
  intros H1 H2 Ha Hp Hv1 Hv2 Hin s1 s2. subst s2 s1.
  assert (Hv : status_choice v = true /\ String.eqb v "completed" = false).
  { rewrite !elem_of_cons, elem_of_nil in Hin.
    destruct Hin as [->|[->|[->|[]]]]; by split. }
  destruct Hv as [Hc Hne].
  rewrite !admin_update_application_status_settled, H1, H2.
  unfold posted_status. rewrite Hv1, Hv2, Hc. simpl. rewrite Ha.
  rewrite settled_applications, lookup_insert_eq.
  assert (Hpets :
    pets (settled t2 id (AdoptionApplication.set_status "completed" t1 a) v
            (settled t1 id a "completed" s))
    = <[AdoptionApplication.pet a := Pet.set_status "available" p]> (pets s)).
  { rewrite settled_pets. simpl. rewrite settled_pets, Hp. simpl.
    rewrite lookup_insert_eq, Hne. apply insert_insert_eq. }
  split_and!.
  - rewrite settled_pets, Hp. simpl. by rewrite lookup_insert_eq.
  - exists (Pet.set_status "available" p). rewrite Hpets.
    split; [apply lookup_insert_eq|]. unfold with_status. simpl.
    split_and!; done.
  - intros pk Hpk. rewrite Hpets. by rewrite lookup_insert_ne.
  - intros Hav. rewrite Hpets. apply insert_id.
    rewrite Hp. f_equal. destruct p. simpl in *. by subst.
  - rewrite !settled_applications. by rewrite lookup_insert_eq.
Qed.

(** X7. A status update and a notes update of the same application can be
    made in either order: for a staff POST of a recognized status and a staff
    POST of notes, the status view at [t1] followed by the notes view at
    [t2] leaves the same store as the notes view at [t1] followed by the
    status view at [t2]. *)
Theorem status_and_notes_commute t1 t2 id request_s request_n s v :
  staff_post request_s = true ->
  staff_post request_n = true ->
  QueryDict_get (Request.POST request_s) "status" = Some v ->
  v ∈ ["pending"; "approved"; "rejected"; "completed"]%string ->
  store (admin_update_application_notes t2 id request_n
           (store (admin_update_application_status get_status_display
                     t1 id request_s s)))
  = store (admin_update_application_status get_status_display
             t2 id request_s
             (store (admin_update_application_notes t1 id request_n s))).
Proof.
  intros Hs Hn Hv Hin. apply status_choice_elem in Hin.
  rewrite !admin_update_application_notes_noted.
  rewrite !admin_update_application_status_settled.
  rewrite Hs, Hn. unfold posted_status. rewrite Hv, Hin.
  destruct (applications s !! id) as [a|] eqn:Ha; [|by rewrite Ha].
  simpl. rewrite settled_applications, !lookup_insert_eq.
  apply store_eq; simpl.
  - by rewrite !settled_pets.
  - rewrite !settled_applications. simpl. by rewrite !insert_insert_eq.
  - by rewrite !settled_seq.
Qed.

End Composition.

(** X6. Of two notes updates of the same application the later one wins:
    whatever the first request did, a staff POST of notes leaves the store
    it would have left without the first. *)
Theorem set_notes_last_write t1 t2 id request1 request2 s :
  staff_post request2 = true ->
  store (admin_update_application_notes t2 id request2
           (store (admin_update_application_notes t1 id request1 s)))
  = store (admin_update_application_notes t2 id request2 s).
Proof.
  intros H2. rewrite !admin_update_application_notes_noted, H2.
  destruct (staff_post request1); [|done].
  destruct (applications s !! id) as [a|] eqn:Ha; [|by rewrite Ha].
  simpl. rewrite lookup_insert_eq.
  apply store_eq; simpl; [done | | done]. by rewrite insert_insert_eq.
Qed.

(** ** Histories *)

Lemma form_columns_pet a a' :
  AdoptionApplication.form_columns a' = AdoptionApplication.form_columns a ->
  AdoptionApplication.pet a' = AdoptionApplication.pet a.
Proof. unfold AdoptionApplication.form_columns. intros H. by simplify_eq. Qed.

Lemma status_moved_refl p : status_moved p p.
Proof. unfold status_moved. by split_and!; try left. Qed.

Lemma status_moved_trans p1 p2 p3 :
  status_moved p1 p2 -> status_moved p2 p3 -> status_moved p1 p3.
Proof.
  intros (N1 & S1 & F1 & C1 & H1) (N2 & S2 & F2 & C2 & H2).
  unfold status_moved. split_and!; try congruence.
  destruct H2 as [H2|H2]; [|by right].
  rewrite H2. exact H1.
Qed.

Lemma status_moved_set st p :
  st = "adopted"%string \/ st = "available"%string ->
  status_moved p (Pet.set_status st p).
Proof. intros H. unfold status_moved. simpl. split_and!; try done. by right. Qed.

Lemma evolves_refl s : evolves s s.
Proof.
  split_and!.
  - split; [done|]. intros pk p Hp. exists p. split; [done|].
    apply status_moved_refl.
  - intros id a Ha. eauto.
  - intros id a Ha. left. exists a. split_and!; try done. by left.
Qed.

Lemma evolves_trans s1 s2 s3 : evolves s1 s2 -> evolves s2 s3 -> evolves s1 s3.
Proof.
  intros ((D12 & P12) & K12 & F12) ((D23 & P23) & K23 & F23). split_and!.
  - split; [congruence|]. intros pk p3 Hp3.
    destruct (P23 pk p3 Hp3) as (p2 & Hp2 & M23).
    destruct (P12 pk p2 Hp2) as (p1 & Hp1 & M12).
    exists p1. split; [done|]. by apply (status_moved_trans p1 p2 p3).
  - intros id a1 Ha1.
    destruct (K12 id a1 Ha1) as (a2 & Ha2 & C12).
    destruct (K23 id a2 Ha2) as (a3 & Ha3 & C23).
    exists a3. split; [done|]. congruence.
  - intros id a3 Ha3.
    destruct (F23 id a3 Ha3) as [(a2 & Ha2 & C23 & S23) | (N2 & O2 & R3)].
    + destruct (F12 id a2 Ha2) as [(a1 & Ha1 & C12 & S12) | (N1 & O1 & R2)].
      * left. exists a1. split_and!; [done | congruence |].
        destruct S23 as [S23|S23]; [|by right].
        rewrite S23. exact S12.
      * right. split_and!; [done | |].
        -- by rewrite (form_columns_pet _ _ C23).
        -- destruct S23 as [S23|S23]; [by rewrite S23 | done].
    + right. split_and!; [ | | done].
      * destruct (applications s1 !! id) as [a1|] eqn:Ha1; [|done].
        destruct (K12 id a1 Ha1) as (a2 & Ha2 & _). congruence.
      * apply elem_of_dom. rewrite <- D12. by apply elem_of_dom.
Qed.

(** A row of an application on file is replaced, keeping its form columns. *)
Lemma evolves_save_application id a a' s :
  applications s !! id = Some a ->
  AdoptionApplication.form_columns a' = AdoptionApplication.form_columns a ->
  AdoptionApplication.status a' = AdoptionApplication.status a
  \/ status_choice (AdoptionApplication.status a') = true ->
  evolves s (save_application id a' s).
Proof.
  intros Ha Hc Hs. split_and!.
  - apply (evolves_refl s).
  - intros j b Hb. simpl.
    destruct (decide (j = id)) as [->|Hne].
    + exists a'. rewrite lookup_insert_eq. split; [done|]. congruence.
    + exists b. by rewrite lookup_insert_ne.
  - intros j b' Hb'. simpl in Hb'. left.
    destruct (decide (j = id)) as [->|Hne].
    + rewrite lookup_insert_eq in Hb'. injection Hb' as <-. eauto.
    + rewrite lookup_insert_ne in Hb' by done.
      exists b'. split_and!; try done. by left.
Qed.

(** A new application is filed for a pet on file. *)
Lemma evolves_new_application a s :
  is_Some (pets s !! AdoptionApplication.pet a) ->
  status_choice (AdoptionApplication.status a) = true ->
  evolves s (file_application a s).
Proof.
  intros Hp Hs. pose proof (new_application_id_fresh s) as Hfresh.
  split_and!.
  - apply (evolves_refl s).
  - intros j b Hb. simpl. exists b. split; [|done].
    rewrite lookup_insert_ne; [done|]. intros Heq. rewrite <- Heq in Hb.
    congruence.
  - intros j b' Hb'. simpl in Hb'.
    destruct (decide (j = new_application_id s)) as [->|Hne].
    + rewrite lookup_insert_eq in Hb'. injection Hb' as <-. by right.
    + rewrite lookup_insert_ne in Hb' by done. left.
      exists b'. split_and!; try done. by left.
Qed.

(** The status of a pet on file is set to adopted or available. *)
Lemma evolves_save_pet pk p st s :
  pets s !! pk = Some p ->
  st = "adopted"%string \/ st = "available"%string ->
  evolves s (save_pet pk (Pet.set_status st p) s).
Proof.
  intros Hp Hst. split_and!.
  - split.
    + simpl. apply dom_insert_lookup_L. eauto.
    + intros j q Hq. simpl in Hq.
      destruct (decide (j = pk)) as [->|Hne].
      * rewrite lookup_insert_eq in Hq. injection Hq as <-.
        exists p. split; [done|]. by apply status_moved_set.
      * rewrite lookup_insert_ne in Hq by done.
        exists q. split; [done|]. apply status_moved_refl.
  - apply (evolves_refl s).
  - intros j b Hb. simpl in Hb. left. exists b. split_and!; try done.
    by left.
Qed.

Lemma evolves_settled now id a v s :
  applications s !! id = Some a ->
  status_choice v = true ->
  evolves s (settled now id a v s).
Proof.
  intros Ha Hv.
  assert (H1 : evolves s
            (save_application id (AdoptionApplication.set_status v now a) s))
    by (apply (evolves_save_application id a); [done | done | by right]).
  unfold settled. cbv zeta.
  destruct (pets s !! AdoptionApplication.pet a) as [p|] eqn:Hp; [|done].
  destruct (String.eqb v "completed").
  - eapply evolves_trans; [exact H1|].
    apply evolves_save_pet; [done | by left].
  - destruct (String.eqb (AdoptionApplication.status a) "completed");
      [|done].
    eapply evolves_trans; [exact H1|].
    apply evolves_save_pet; [done | by right].
Qed.

Section Histories.

Variable get_status_display : AdoptionApplication.t -> string.
Variable to_pk : string -> option Z.
Variable default_notes : string.
Variable violates : AdoptionApplication.t -> bool.

#[local] Abbreviation history :=
  (perform_all get_status_display to_pk default_notes violates).

Lemma perform_evolves op s :
  evolves s (perform get_status_display to_pk default_notes violates s op).
Proof.
  destruct op as [now pet_id request | now id request | now id request];
    unfold perform, handle.
  - unfold adoption_application, login_required, user_passes_test.
    destruct (is_authenticated (Request.user request));
      [|apply evolves_refl].
    destruct (submit_application_stores to_pk default_notes violates
                now pet_id request s)
      as [-> | (pk & p & a & Hp & Ha & ->)]; [apply evolves_refl|].
    apply objects_create_saved in Ha as (adults & children & ->).
    apply evolves_new_application; [|done].
    simpl. apply available_pet_Some in Hp as [-> _]. eauto.
  - rewrite admin_update_application_status_settled.
    destruct (staff_post request); [|apply evolves_refl].
    destruct (applications s !! id) as [a|] eqn:Ha; [|apply evolves_refl].
    unfold posted_status.
    destruct (QueryDict_get _ _) as [v|]; [|apply evolves_refl].
    destruct (status_choice v) eqn:Hv; [|apply evolves_refl].
    by apply evolves_settled.
  - rewrite admin_update_application_notes_noted.
    destruct (staff_post request); [|apply evolves_refl].
    destruct (applications s !! id) as [a|] eqn:Ha; [|apply evolves_refl].
    apply (evolves_save_application id a); [done | done | by left].
Qed.

Lemma history_evolves ops s : evolves s (history ops s).
Proof.
  revert s. induction ops as [|op ops IH]; intros s; [apply evolves_refl|].
  simpl. eapply evolves_trans; [apply perform_evolves | apply IH].
Qed.

(** X8. The workflow never adds or removes a pet and writes no column of a
    pet but its status, which it only ever sets to adopted or available:
    after any sequence of requests to the three views, the pets on file are
    those of the start, each with its name, slug, featured flag and
    descriptive columns, and with its old status, adopted or available. *)
Theorem pets_only_change_status ops s :
  pets_status_moved s (history ops s).
Proof. apply history_evolves. Qed.

(** X9. An application on file is never removed and the columns it was
    created with (applicant, pet, account, submission time) are never
    rewritten, whatever requests follow. *)
Theorem applications_never_rewritten ops s id a :
  applications s !! id = Some a ->
  exists a', applications (history ops s) !! id = Some a'
             /\ AdoptionApplication.form_columns a'
                = AdoptionApplication.form_columns a.
Proof. intros Ha. by apply (history_evolves ops s). Qed.

(** X10. Referential integrity is kept: if every application refers to a
    pet on file, this is still so after any sequence of requests. *)
Theorem pets_on_file_invariant ops s :
  pets_on_file s -> pets_on_file (history ops s).
Proof.
  intros Hinv id a' Ha'.
  destruct (history_evolves ops s) as ((Hdom & _) & _ & Hfrom).
  apply elem_of_dom. rewrite Hdom. apply elem_of_dom.
  destruct (Hfrom id a' Ha') as [(a & Ha & Hc & _) | (_ & Hp & _)]; [|done].
  rewrite (form_columns_pet _ _ Hc). by apply (Hinv id a).
Qed.

(** X11. No request stores a status outside pending, approved, rejected and
    completed: if every application has one of the four, this is still so
    after any sequence of requests. *)
Theorem statuses_recognized_invariant ops s :
  statuses_recognized s -> statuses_recognized (history ops s).
Proof.
  intros Hinv id a' Ha'.
  destruct (history_evolves ops s) as (_ & _ & Hfrom).
  destruct (Hfrom id a' Ha') as [(a & Ha & _ & [Hs|Hs]) | (_ & _ & Hs)];
    try done.
  rewrite Hs. by apply (Hinv id a).
Qed.

End Histories.

(** ** The rule "adopted if and only if completed" *)



Section AdoptedIffCompleted.

Variable get_status_display : AdoptionApplication.t -> string.
Variable to_pk : string -> option Z.
Variable default_notes : string.
Variable violates : AdoptionApplication.t -> bool.

#[local] Abbreviation step :=
  (perform get_status_display to_pk default_notes violates).






(** The update that is left out does break the rule: after it the pet is
    available while the other application is still completed. *)
Lemma revert_with_sibling_breaks_rule now id request s a p :
  reverts_with_sibling s (set_status now id request) ->
  applications s !! id = Some a ->
  pets s !! AdoptionApplication.pet a = Some p ->
  ~ adopted_iff_completed (step s (set_status now id request)).
Proof.
  intros Hrev Ha Hp Hrule. unfold reverts_with_sibling in Hrev.
  rewrite Ha in Hrev.
  destruct (posted_status request) as [v|] eqn:Hv; [|done].
  destruct Hrev as (Hpost & Hwas & Hnew & Hsib).
  unfold perform, handle in Hrule.
  rewrite admin_update_application_status_settled, Hpost, Ha, Hv in Hrule.
  assert (Hq : pets (settled now id a v s) !! AdoptionApplication.pet a
               = Some (Pet.set_status "available" p)).
  { rewrite settled_pets, Hp.
    apply String.eqb_neq in Hnew. rewrite Hnew.
    apply String.eqb_eq in Hwas. rewrite Hwas.
    apply lookup_insert_eq. }
  destruct (Hrule _ _ Hq) as [_ Hadopt].
  assert (Habs : Pet.status (Pet.set_status "available" p)
                 = "adopted"%string); [|done].
  apply Hadopt. apply map_Exists_lookup.
  apply map_Exists_lookup in Hsib as (j & b & Hj & Hne & Hb).
  exists j, b. split; [|done].
  rewrite settled_applications. by rewrite lookup_insert_ne.
Qed.

End AdoptedIffCompleted.

(** ** More on submissions *)

Section MoreSubmission.

Variable get_status_display : AdoptionApplication.t -> string.
Variable to_pk : string -> option Z.
Variable default_notes : string.
Variable violates : AdoptionApplication.t -> bool.

(** X12. Whatever the request, the adoption view writes no pet, rewrites
    and removes no application, and files at most one new application; it
    changes the store only for an authenticated POST. *)
Theorem submission_conservative now pet_id request s :
  let o := adoption_application to_pk default_notes violates now pet_id request s in
  pets (store o) = pets s
  /\ applications s ⊆ applications (store o)
  /\ (size (applications (store o)) <= S (size (applications s)))%nat
  /\ (store o = s
      \/ (is_authenticated (Request.user request) = true
          /\ Request.method request = "POST"%string)).
Proof.
  cbv zeta. unfold adoption_application, login_required, user_passes_test.
  destruct (is_authenticated (Request.user request)) eqn:Hauth.
  - destruct (submit_application_stores to_pk default_notes violates
                now pet_id request s)
      as [Hsame | (pk & p & a & Hp & Ha & Hcreate)].
    + rewrite Hsame. split_and!; try done; [lia | by left].
    + split_and!.
      * by rewrite Hcreate.
      * rewrite Hcreate. simpl.
        apply insert_subseteq, new_application_id_fresh.
      * rewrite Hcreate. simpl.
        by rewrite map_size_insert_None by apply new_application_id_fresh.
      * destruct (String.eqb_spec (Request.method request) "POST")
          as [Hm|Hm]; [by right|].
        left. apply String.eqb_neq in Hm.
        unfold submit_application. rewrite Hm.
        by destruct (truthy_pk pet_id && none _).
  - simpl. split_and!; try done; [lia | by left].
Qed.


(** X27. A submission whose form the database does not accept (a household
    column that is not a number, a broken constraint of the table) files
    nothing: the exception leaves the view, the store is unchanged and no
    message is queued. *)
Theorem refused_form_files_nothing now pet_id request s pk p :
  is_authenticated (Request.user request) = true ->
  Request.method request = "POST"%string ->
  available_pet pk s = Some p ->
  submission_for to_pk pk pet_id request ->
  ~ accepted to_pk default_notes violates now pk request ->
  let o := adoption_application to_pk default_notes violates now pet_id request s in
  store o = s
  /\ messages o = []
  /\ exists exception, response o = Uncaught exception.
Proof.
  intros Hauth Hm Hp Hfor Hacc o. subst o.
  unfold adoption_application, login_required, user_passes_test.
  rewrite Hauth.
  rewrite (submit_application_available to_pk default_notes violates
             now pet_id request s pk p) by done.
  unfold create_and_redirect. unfold accepted in Hacc.
  destruct (objects_create _ _ _ _ _ _ _) as [a|exception]; [done|].
  simpl. eauto.
Qed.

(** X14. Once staff have completed an application, its pet takes no further
    applications: a submission naming that pet is turned away with an error
    message and the store stays as the completion left it. *)
Theorem completed_blocks_submission t1 t2 id request1 pet_id request2 s a p :
  staff_post request1 = true ->
  QueryDict_get (Request.POST request1) "status" = Some "completed"%string ->
  applications s !! id = Some a ->
  pets s !! AdoptionApplication.pet a = Some p ->
  is_authenticated (Request.user request2) = true ->
  Request.method request2 = "POST"%string ->
  submission_for to_pk (AdoptionApplication.pet a) pet_id request2 ->
  let s1 := store (admin_update_application_status get_status_display
                     t1 id request1 s) in
  let o := adoption_application to_pk default_notes violates t2 pet_id request2 s1 in
  store o = s1
  /\ messages o = [(error, refusal pet_id)]
  /\ Pet.status <$> pets s1 !! AdoptionApplication.pet a
     = Some "adopted"%string.
Proof.
  intros H1 Hv Ha Hp Hauth Hm Hfor s1 o. subst o s1.
  rewrite admin_update_application_status_settled, H1, Ha.
  unfold posted_status. rewrite Hv. simpl.
  assert (Hpet : pets (settled t1 id a "completed" s)
                 !! AdoptionApplication.pet a
                 = Some (Pet.set_status "adopted" p)).
  { rewrite settled_pets, Hp. simpl. apply lookup_insert_eq. }
  unfold adoption_application, login_required, user_passes_test.
  rewrite Hauth.
  destruct (submit_application_unavailable to_pk default_notes violates
              t2 pet_id
              request2 (settled t1 id a "completed" s)
              (AdoptionApplication.pet a) (Pet.set_status "adopted" p))
    as (Hstore & Hmsg & _); try done.
  split_and!; [done | done |]. by rewrite Hpet.
Qed.

End MoreSubmission.

(** * Contact messages, counts and the applicant's pages *)

(** ** Counting rows *)

Lemma size_delete_Some {A} (m : gmap Z A) k x :
  m !! k = Some x -> size m = S (size (delete k m)).
Proof.
  intros H. rewrite <- (insert_delete_id m k x H) at 1.
  apply map_size_insert_None, lookup_delete_eq.
Qed.

(** Replacing a row moves the count of the rows that satisfy [P] by what
    the old and the new row contribute. *)
Lemma size_filter_insert {A} (P : Z * A -> Prop) `{!forall x, Decision (P x)}
    (m : gmap Z A) k x y :
  m !! k = Some x ->
  (size (filter P (<[k:=y]> m)) + (if decide (P (k, x)) then 1 else 0)
   = size (filter P m) + (if decide (P (k, y)) then 1 else 0))%nat.
Proof.
  intros Hk.
  destruct (decide (P (k, y))) as [Hy|Hy].
  - rewrite map_filter_insert_True by done.
    destruct (decide (P (k, x))) as [Hx|Hx].
    + rewrite map_size_insert_Some; [done|].
      exists x. by apply map_lookup_filter_Some_2.
    + rewrite map_size_insert_None; [lia|].
      apply map_lookup_filter_None_2. right. intros z Hz.
      by replace z with x by congruence.
  - rewrite map_filter_insert_False by done.
    rewrite map_filter_delete.
    destruct (decide (P (k, x))) as [Hx|Hx].
    + rewrite (size_delete_Some (filter P m) k x); [lia|].
      by apply map_lookup_filter_Some_2.
    + rewrite map_size_delete_None; [lia|].
      apply map_lookup_filter_None_2. right. intros z Hz.
      by replace z with x by congruence.
Qed.

(** ** The staff views on contact messages *)

Lemma staff_only_pass {S O} (to_login : S -> O) view request s :
  is_admin_user (Request.user request) = true ->
  staff_only to_login view request s = view request s.
Proof.
  intros H. unfold staff_only, guarded.
  by rewrite (admin_is_authenticated _ H), H.
Qed.

Lemma staff_only_deny {S O} (to_login : S -> O) view request s :
  is_admin_user (Request.user request) = false ->
  staff_only to_login view request s = to_login s.
Proof.
  intros H. unfold staff_only, guarded. rewrite H.
  by destruct (is_authenticated _).
Qed.

Lemma set_is_read_same c :
  ContactMessage.is_read c = true -> ContactMessage.set_is_read true c = c.
Proof. destruct c. simpl. by intros ->. Qed.

Lemma set_is_responded_same b c :
  ContactMessage.is_responded c = b ->
  ContactMessage.set_is_responded b c = c.
Proof. destruct c. simpl. by intros ->. Qed.

Lemma contact_detail_inbox id request m c :
  m !! id = Some c ->
  inbox (contact_detail id request m)
  = <[id := ContactMessage.set_is_read true c]> m.
Proof.
  intros Hc. unfold contact_detail. rewrite Hc.
  destruct (ContactMessage.is_read c) eqn:Hr; simpl; [|done].
  rewrite set_is_read_same by done. symmetry. by apply insert_id.
Qed.


(** X16. Opening an unread message lowers the dashboard's count of unread
    messages by exactly one; opening a read one leaves the count. *)
Theorem viewing_lowers_unread id request m c :
  is_admin_user (Request.user request) = true ->
  m !! id = Some c ->
  let o := admin_contact_detail id request m in
  (count_unread (inbox o) + (if ContactMessage.is_read c then 0 else 1)
   = count_unread m)%nat.
Proof.
  intros Hadmin Hc o. subst o. unfold admin_contact_detail.
  rewrite staff_only_pass by done.
  rewrite (contact_detail_inbox id request m c Hc).
  unfold count_unread.
  pose proof (size_filter_insert
                (fun kv : Z * ContactMessage.t =>
                   ContactMessage.is_read kv.2 = false)
                m id c (ContactMessage.set_is_read true c) Hc) as H.
  simpl in H.
  destruct (ContactMessage.is_read c) eqn:Hr;
    repeat case_decide; try done; lia.
Qed.

(** The inbox after the contact status view, as a function of the
    request. *)
Lemma admin_update_contact_status_inbox id request m :
  inbox (admin_update_contact_status id request m)
  = if staff_post request then
      match m !! id, QueryDict_get (Request.POST request) "action" with
      | Some c, Some action =>
          match action_flag action with
          | Some b => <[id := ContactMessage.set_is_responded b c]> m
          | None => m
          end
      | _, _ => m
      end
    else m.
Proof.
  unfold admin_update_contact_status, staff_post.
  destruct (is_admin_user (Request.user request)) eqn:Hadmin;
    [rewrite staff_only_pass by done | by rewrite staff_only_deny].
  unfold update_contact_status, action_flag. simpl.
  destruct (String.eqb (Request.method request) "POST"); [|done].
  destruct (m !! id) as [c|]; [|done].
  destruct (QueryDict_get _ _) as [action|]; [|done].
  destruct (String.eqb action "mark_responded"); [done|].
  by destruct (String.eqb action "mark_unresponded").
Qed.

(** X17. Of two staff markings of a contact message the later one decides
    whether it counts as responded: afterwards [is_responded] is the flag of
    the later action. Whether the message was read, its other columns and
    the other messages are untouched, and marking a message and marking it
    back restores the inbox exactly. *)
Theorem contact_marking_last_wins id request1 request2 m c action1 action2 b1 b2 :
  staff_post request1 = true ->
  staff_post request2 = true ->
  m !! id = Some c ->
  QueryDict_get (Request.POST request1) "action" = Some action1 ->
  QueryDict_get (Request.POST request2) "action" = Some action2 ->
  action_flag action1 = Some b1 ->
  action_flag action2 = Some b2 ->
  let m1 := inbox (admin_update_contact_status id request1 m) in
  let m2 := inbox (admin_update_contact_status id request2 m1) in
  ContactMessage.is_responded <$> m1 !! id = Some b1
  /\ ContactMessage.is_responded <$> m2 !! id = Some b2
  /\ ContactMessage.is_read <$> m2 !! id = Some (ContactMessage.is_read c)
  /\ m2 = <[id := ContactMessage.set_is_responded b2 c]> m
  /\ (forall j, j <> id -> m2 !! j = m !! j)
  /\ (ContactMessage.is_responded c = b2 -> m2 = m).
Proof.
  intros H1 H2 Hc Ha1 Ha2 Hb1 Hb2 m1 m2. subst m2 m1.
  rewrite !admin_update_contact_status_inbox, H1, H2, Hc, Ha1, Ha2, Hb1, Hb2.
  rewrite lookup_insert_eq.
  assert (Hlast :
    <[id := ContactMessage.set_is_responded b2
              (ContactMessage.set_is_responded b1 c)]>
      (<[id := ContactMessage.set_is_responded b1 c]> m)
    = <[id := ContactMessage.set_is_responded b2 c]> m)
    by apply insert_insert_eq.
  rewrite Hlast. split_and!.
  - by rewrite ?lookup_insert_eq.
  - by rewrite ?lookup_insert_eq.
  - by rewrite ?lookup_insert_eq.
  - done.
  - intros j Hne. by rewrite lookup_insert_ne.
  - intros Hsame. rewrite set_is_responded_same by done.
    by apply insert_id.
Qed.

(** X18. A request to the contact status view that carries neither of the
    two actions changes no message and queues no notice, whoever sends
    it. *)
Theorem contact_unknown_action id request m :
  QueryDict_get (Request.POST request) "action"
    <> Some "mark_responded"%string ->
  QueryDict_get (Request.POST request) "action"
    <> Some "mark_unresponded"%string ->
  let o := admin_update_contact_status id request m in
  inbox o = m /\ notices o = [].
Proof.
  intros H1 H2 o. subst o. unfold admin_update_contact_status.
  destruct (is_admin_user (Request.user request)) eqn:Hadmin;
    [rewrite staff_only_pass by done | by rewrite staff_only_deny].
  unfold update_contact_status.
  destruct (String.eqb (Request.method request) "POST"); [|done].
  destruct (m !! id) as [c|]; [|done].
  destruct (QueryDict_get _ _) as [action|]; [|done].
  destruct (String.eqb_spec action "mark_responded") as [->|_]; [done|].
  by destruct (String.eqb_spec action "mark_unresponded") as [->|_].
Qed.

(** ** The counts of the dashboard and of the homepage *)

Section Counts.

Variable get_status_display : AdoptionApplication.t -> string.

(** X19. When staff complete an application for an available pet, the
    dashboard counts one available pet fewer and one adopted pet more; the
    count of pending applications drops by one if the application was
    pending, and the count of unread messages is not concerned. *)
Theorem completing_moves_one_pet now id request s m a p :
  staff_post request = true ->
  QueryDict_get (Request.POST request) "status" = Some "completed"%string ->
  applications s !! id = Some a ->
  pets s !! AdoptionApplication.pet a = Some p ->
  Pet.status p = "available"%string ->
  let s' := store (admin_update_application_status get_status_display
                     now id request s) in
  let before := dashboard_stats s m in
  let after := dashboard_stats s' m in
  Dashboard.available_pets before = S (Dashboard.available_pets after)
  /\ Dashboard.total_adopted after = S (Dashboard.total_adopted before)
  /\ (Dashboard.pending_applications after
      + (if decide (AdoptionApplication.status a = "pending"%string)
         then 1 else 0)
      = Dashboard.pending_applications before)%nat
  /\ Dashboard.unread_messages after = Dashboard.unread_messages before.
Proof.
  intros Hpost Hv Ha Hp Hav s' before after. subst s' before after.
  rewrite admin_update_application_status_settled, Hpost, Ha.
  unfold posted_status. rewrite Hv. simpl.
  unfold count_pets, count_applications.
  rewrite settled_pets, settled_applications, Hp. simpl.
  pose proof (size_filter_insert
                (fun kv : Z * Pet.t => Pet.status kv.2 = "available"%string)
                (pets s) (AdoptionApplication.pet a) p
                (Pet.set_status "adopted" p) Hp) as Havail.
  pose proof (size_filter_insert
                (fun kv : Z * Pet.t => Pet.status kv.2 = "adopted"%string)
                (pets s) (AdoptionApplication.pet a) p
                (Pet.set_status "adopted" p) Hp) as Hadopt.
  pose proof (size_filter_insert
                (fun kv : Z * AdoptionApplication.t =>
                   AdoptionApplication.status kv.2 = "pending"%string)
                (applications s) id a
                (AdoptionApplication.set_status "completed" now a) Ha)
    as Hpend.
  simpl in Havail, Hadopt, Hpend. rewrite Hav in Havail, Hadopt.
  split_and!; [ | | | done].
  - repeat case_decide; try done; lia.
  - repeat case_decide; try done; lia.
  - clear Havail Hadopt. repeat case_decide; try done; lia.
Qed.

End Counts.

(** X20. The homepage never shows a zero: each of its three counts is the
    count the dashboard would give when that is positive, and a fixed
    figure (1247 adopted, 15 available, 156 families) when it is zero. *)
Theorem home_never_shows_zero s :
  let h := home_stats s in
  (0 < Home.total_adopted h /\ 0 < Home.available_now h
   /\ 0 < Home.happy_families h)%nat
  /\ Home.total_adopted h
     = (if decide (count_pets "adopted" s = 0%nat) then 1247%nat
        else count_pets "adopted" s)
  /\ Home.available_now h
     = (if decide (count_pets "available" s = 0%nat) then 15%nat
        else count_pets "available" s)
  /\ Home.happy_families h
     = (if decide (count_applications "completed" s = 0%nat) then 156%nat
        else count_applications "completed" s).
Proof.
  cbv zeta. unfold home_stats. simpl.
  destruct (count_pets "adopted" s), (count_pets "available" s),
    (count_applications "completed" s); simpl; split_and!;
    try lia; by repeat case_decide.
Qed.

(** ** Latest rows first *)

#[global] Instance later_first_total {A} (column : A -> Z) :
  Total (later_first column).
Proof. intros x y. unfold later_first. lia. Qed.

#[global] Instance later_first_trans {A} (column : A -> Z) :
  Transitive (later_first column).
Proof. intros x y z. unfold later_first. lia. Qed.

Lemma order_by_desc_elem_of {A} (column : A -> Z) rows x :
  x ∈ order_by_desc column rows <-> x ∈ rows.
Proof. unfold order_by_desc. by rewrite merge_sort_Permutation. Qed.

Lemma order_by_desc_sorted {A} (column : A -> Z) rows :
  StronglySorted (later_first column) (order_by_desc column rows).
Proof. apply StronglySorted_merge_sort; apply _. Qed.

(** The first [n] rows by decreasing [column]: at most [n] of the rows, in
    that order, and no row left out is later than a row taken. *)
Lemma top_rows {A} (column : A -> Z) rows n :
  let l := take n (order_by_desc column rows) in
  (length l <= n)%nat
  /\ StronglySorted (later_first column) l
  /\ (forall x, x ∈ l -> x ∈ rows)
  /\ (forall x y, x ∈ l -> y ∈ rows -> y ∉ l -> column y.2 <= column x.2).
Proof.
  cbv zeta.
  pose proof (order_by_desc_sorted column rows) as Hsorted.
  rewrite <- (take_drop n (order_by_desc column rows)) in Hsorted.
  split_and!.
  - rewrite length_take. lia.
  - by apply StronglySorted_app_1_l in Hsorted.
  - intros x Hx. apply (order_by_desc_elem_of column).
    by apply (subseteq_take n).
  - intros x y Hx Hy Hny.
    apply (order_by_desc_elem_of column) in Hy.
    rewrite <- (take_drop n (order_by_desc column rows)) in Hy.
    apply elem_of_app in Hy as [Hy|Hy]; [done|].
    exact (StronglySorted_app_1_elem_of _ _ _ x y Hsorted Hx Hy).
Qed.

(** X21. For staff the dashboard lists at most five applications, each on
    file, latest first, and no application left out was submitted after one
    that is listed. *)
Theorem dashboard_recent_applications request s m :
  is_admin_user (Request.user request) = true ->
  exists d,
    admin_dashboard request (s, m)
    = page "shelter/admin/admin_dashboard.html" d
    /\ Dashboard.the_stats d = dashboard_stats s m
    /\ (length (Dashboard.recent_applications d) <= 5)%nat
    /\ StronglySorted (later_first AdoptionApplication.submitted_at)
         (Dashboard.recent_applications d)
    /\ (forall id a, (id, a) ∈ Dashboard.recent_applications d ->
          applications s !! id = Some a)
    /\ (forall x id a,
          x ∈ Dashboard.recent_applications d ->
          applications s !! id = Some a ->
          (id, a) ∉ Dashboard.recent_applications d ->
          AdoptionApplication.submitted_at a
          <= AdoptionApplication.submitted_at x.2).
Proof.
  intros Hadmin. unfold admin_dashboard.
  rewrite staff_only_pass by done. unfold dashboard.
  eexists. split; [reflexivity|]. simpl.
  destruct (top_rows AdoptionApplication.submitted_at
              (map_to_list (applications s)) 5)
    as (Hlen & Hsorted & Hin & Htop).
  split_and!; try done.
  - intros id a Hx. by apply elem_of_map_to_list, Hin.
  - intros x id a Hx Ha Hout.
    apply (Htop x (id, a)); [done | by apply elem_of_map_to_list | done].
Qed.

(** ** The applicant's pages *)

Section OwnPagesProperties.

Variable email_of : Z -> string.

Lemma own_applications_elem_of u s id a :
  (id, a) ∈ own_applications email_of u s
  <-> applications s !! id = Some a /\ own email_of u a.
Proof.
  unfold own_applications.
  rewrite order_by_desc_elem_of, list_elem_of_filter, elem_of_map_to_list.
  simpl. tauto.
Qed.

(** X22. The page of a logged-in account lists an application exactly when
    it is on file and either refers to the account or carries its e-mail
    address, so an application of another account under another address is
    never listed. Each such application is listed once, and they come
    latest first. *)
Theorem user_applications_lists_own request s u staff superuser :
  Request.user request = Account u staff superuser ->
  exists l,
    user_applications email_of request s
    = page "shelter/user_applications.html" l
    /\ NoDup l
    /\ StronglySorted (later_first AdoptionApplication.submitted_at) l
    /\ (forall id a,
          (id, a) ∈ l <->
          applications s !! id = Some a
          /\ (AdoptionApplication.user a = Some u
              \/ AdoptionApplication.email a = Some (email_of u))).
Proof.
  intros Hu. unfold user_applications. rewrite Hu.
  eexists. split; [reflexivity|]. split_and!.
  - unfold own_applications, order_by_desc.
    rewrite merge_sort_Permutation.
    apply NoDup_filter, NoDup_map_to_list.
  - apply order_by_desc_sorted.
  - intros id a. apply own_applications_elem_of.
Qed.

(** X23. The account page sends staff and superusers to the dashboard; any
    other account sees at most three of its applications, and none of its
    applications left out was submitted after one that is shown. *)
Theorem account_shows_latest_three request s u staff superuser :
  Request.user request = Account u staff superuser ->
  (staff || superuser = true ->
   account email_of request s = instead (redirect "admin_dashboard" []))
  /\ (staff || superuser = false ->
      exists l,
        account email_of request s = page "shelter/account.html" l
        /\ (length l <= 3)%nat
        /\ (forall id a, (id, a) ∈ l ->
              applications s !! id = Some a /\ own email_of u a)
        /\ (forall x id a,
              x ∈ l -> applications s !! id = Some a -> own email_of u a ->
              (id, a) ∉ l ->
              AdoptionApplication.submitted_at a
              <= AdoptionApplication.submitted_at x.2)).
Proof.
  intros Hu. unfold account. rewrite Hu. split; intros Hs; rewrite Hs;
    [done|].
  eexists. split; [reflexivity|].
  destruct (top_rows AdoptionApplication.submitted_at
              (filter (fun kv : Z * AdoptionApplication.t =>
                         own email_of u kv.2)
                      (map_to_list (applications s))) 3)
    as (Hlen & _ & Hin & Htop).
  split_and!; [done | |].
  - intros id a Hx. apply Hin in Hx.
    apply list_elem_of_filter in Hx as [Hown Hx].
    by apply elem_of_map_to_list in Hx.
  - intros x id a Hx Ha Hown Hout.
    apply (Htop x (id, a)); [done | | done].
    apply list_elem_of_filter. split; [done|].
    by apply elem_of_map_to_list.
Qed.

Variable to_pk : string -> option Z.
Variable default_notes : string.
Variable violates : AdoptionApplication.t -> bool.


End OwnPagesProperties.

(** ** Where the status view redirects to *)

Lemma prefix_app (n h : string) :
  String.prefix n h = true <-> exists post, h = String.append n post.
Proof.
  revert n. induction h as [|d h IH]; intros [|c n]; simpl.
  - split; [intros _; by exists EmptyString | done].
  - split; [done | by intros [post ?]].
  - split; [intros _; by exists (String d h) | done].
  - destruct (Ascii.ascii_dec c d) as [->|Hne].
    + rewrite IH. split.
      * intros [post ->]. eauto.
      * intros [post Hpost]. injection Hpost as ->. eauto.
    + split; [done|]. intros [post Hpost]. by injection Hpost as <-.
Qed.

Lemma length_append (a b : string) :
  String.length (String.append a b)
  = (String.length a + String.length b)%nat.
Proof. induction a as [|c a IH]; simpl; [done | by rewrite IH]. Qed.

Lemma str_in_nil n : str_in n EmptyString = String.prefix n EmptyString.
Proof. unfold str_in. apply orb_false_r. Qed.

Lemma str_in_cons n d h :
  str_in n (String d h) = String.prefix n (String d h) || str_in n h.
Proof. reflexivity. Qed.

(** [str_in] is Python's substring test. *)
Lemma str_in_app (n h : string) :
  str_in n h = true
  <-> exists pre post, h = String.append pre (String.append n post).
Proof.
  induction h as [|d h IH].
  - rewrite str_in_nil, prefix_app. split.
    + intros [post ->]. by exists EmptyString, post.
    + intros (pre & post & H). destruct pre; [eauto | done].
  - rewrite str_in_cons, orb_true_iff, prefix_app, IH. split.
    + intros [[post ->] | (pre & post & ->)].
      * by exists EmptyString, post.
      * by exists (String d pre), post.
    + intros (pre & post & H). destruct pre as [|e pre]; simpl in H.
      * left. eauto.
      * right. injection H as -> ->. eauto.
Qed.

(** The target of [status_redirect], by the referer. *)
Lemma status_redirect_cases request id :
  let to_detail :=
    exists url pre post,
      Request.HTTP_REFERER request = Some url
      /\ url = String.append pre
                 (String.append "admin_application_detail" post) in
  (status_redirect request id
   = redirect "admin_application_detail" [("application_id"%string, IntArg id)]
   <-> to_detail)
  /\ (status_redirect request id = redirect "admin_applications" []
      <-> ~ to_detail).
Proof.
  cbv zeta. unfold status_redirect.
  destruct (str_in "admin_application_detail"
              (str (Request.HTTP_REFERER request))) eqn:E.
  - assert (Hyes : exists url pre post,
               Request.HTTP_REFERER request = Some url
               /\ url = String.append pre
                          (String.append "admin_application_detail" post)).
    { apply str_in_app in E as (pre & post & E).
      destruct (Request.HTTP_REFERER request) as [url|]; simpl in E;
        [eauto|].
      exfalso. clear -E.
      assert (Hlen : String.length "None"
                     = String.length
                         (String.append pre
                            (String.append "admin_application_detail" post)))
        by (by rewrite <- E).
      rewrite !length_append in Hlen. simpl in Hlen. lia. }
    split; split; try done.
  - assert (Hno : ~ exists url pre post,
               Request.HTTP_REFERER request = Some url
               /\ url = String.append pre
                          (String.append "admin_application_detail" post)).
    { intros (url & pre & post & Hurl & ->).
      rewrite Hurl in E. simpl in E.
      assert (str_in "admin_application_detail"
                (String.append pre
                   (String.append "admin_application_detail" post)) = true)
        by (apply str_in_app; eauto).
      congruence. }
    split; split; try done.
Qed.

Section RedirectTarget.

Variable get_status_display : AdoptionApplication.t -> string.

(** A staff request that the status view handles to its end is answered by
    the redirect of [status_redirect]. *)
Lemma handled_to_the_end now id request s :
  is_admin_user (Request.user request) = true ->
  (Request.method request = "POST"%string ->
   exists a, applications s !! id = Some a
             /\ is_Some (pets s !! AdoptionApplication.pet a)) ->
  response (admin_update_application_status get_status_display
              now id request s)
  = status_redirect request id.
Proof.
  intros Hadmin Hpost. unfold admin_update_application_status.
  rewrite staff_only_admin by done.
  unfold update_application_status.
  destruct (String.eqb_spec (Request.method request) "POST") as [Hm|Hm];
    [|done].
  destruct (Hpost Hm) as (a & Ha & p & Hp). rewrite Ha.
  destruct (QueryDict_get _ _) as [v|]; [|done].
  destruct (status_choice v); [|done].
  cbv zeta. unfold cascade. simpl. rewrite Hp.
  destruct (String.eqb v "completed"); [done|].
  by destruct (String.eqb (AdoptionApplication.status a) "completed").
Qed.

(** X25. A staff request that the status view handles to its end (one that
    is not a POST, or a POST for an application on file whose pet is on
    file) is answered by a redirect to the page of the application exactly
    when the referring URL contains "admin_application_detail", and by a
    redirect to the list of applications in every other case, in particular
    when the request has no referer. *)
Theorem status_redirect_target now id request s :
  is_admin_user (Request.user request) = true ->
  (Request.method request = "POST"%string ->
   exists a, applications s !! id = Some a
             /\ is_Some (pets s !! AdoptionApplication.pet a)) ->
  let o := admin_update_application_status get_status_display
             now id request s in
  let to_detail :=
    exists url pre post,
      Request.HTTP_REFERER request = Some url
      /\ url = String.append pre
                 (String.append "admin_application_detail" post) in
  (response o
   = redirect "admin_application_detail" [("application_id"%string, IntArg id)]
   <-> to_detail)
  /\ (response o = redirect "admin_applications" [] <-> ~ to_detail).
Proof.
  intros Hadmin Hpost o to_detail. subst o to_detail.
  rewrite (handled_to_the_end now id request s Hadmin Hpost).
  apply status_redirect_cases.
Qed.

End RedirectTarget.

(** * The further properties on the sample shelter *)

(** An applicant posting a status to the staff view is sent to the login
    page. *)
Lemma staff_views_refuse_others_witness :
  admin_update_application_status status_label 200 1
    (Request.mk "POST" adopter [("status", "approved")]%string None) shelter0
  = mkOutcome shelter0 [] redirect_to_login.
Proof.
  apply (staff_views_refuse_others status_label 200 1
           (Request.mk "POST" adopter [("status", "approved")]%string None)
           shelter0).
  reflexivity.
Defined.

(** There is no application 99. *)
Lemma unknown_application_not_found_witness :
  admin_update_application_status status_label 200 99
    (post_status "approved") shelter0
  = mkOutcome shelter0 [] Http404.
Proof.
  apply (unknown_application_not_found status_label 200 99
           (post_status "approved") shelter0).
  - reflexivity.
  - reflexivity.
  - by vm_compute.
Defined.

(** A staff POST with an empty form. *)
Lemma missing_status_field_invalid_witness :
  admin_update_application_status status_label 200 1
    (Request.mk "POST" staff [] None) shelter0
  = mkOutcome shelter0 [(error, "Invalid status"%string)]
      (status_redirect (Request.mk "POST" staff [] None) 1).
Proof.
  apply (missing_status_field_invalid status_label 200 1
           (Request.mk "POST" staff [] None) shelter0
           (pending_application 7 "Ann" "ann@example.com" 100)).
  - reflexivity.
  - reflexivity.
  - exact shelter0_ann.
  - reflexivity.
Defined.

(** Approving Ann's application leaves Bob's application and Luna alone. *)
Lemma set_status_frame_witness :
  let s' := store (admin_update_application_status status_label 200 1
                     (post_status "approved") shelter0) in
  AdoptionApplication.status <$> applications s' !! 1
  = Some "approved"%string
  /\ applications s' !! 2 = applications shelter0 !! 2.
Proof.
  destruct (set_status_frame status_label 200 1 (post_status "approved")
              shelter0 (pending_application 7 "Ann" "ann@example.com" 100)
              "approved") as (Hrow & _ & _ & _ & _ & Hothers & _).
  - reflexivity.
  - reflexivity.
  - exact shelter0_ann.
  - reflexivity.
  - compute_done.
  - split; [by rewrite Hrow | by apply Hothers].
Defined.

(** Luna is on hold; completing and then rejecting Ann's application
    leaves her available. *)
Lemma complete_then_revert_witness :
  Pet.status
    <$> pets (store (admin_update_application_status status_label 201 1
                       (post_status "rejected")
                       (store (admin_update_application_status status_label
                                 200 1 (post_status "completed")
                                 shelter_hold)))) !! 1
  = Some "available"%string.
Proof.
  destruct (complete_then_revert status_label 200 201 1
              (post_status "completed") (post_status "rejected") shelter_hold
              (pending_application 7 "Ann" "ann@example.com" 100)
              (Pet.set_status "pending" luna) "rejected")
    as (_ & (p' & Hrow & Hstatus & _) & _).
  - reflexivity.
  - reflexivity.
  - by vm_compute.
  - by vm_compute.
  - reflexivity.
  - reflexivity.
  - compute_done.
  - change (AdoptionApplication.pet
              (pending_application 7 "Ann" "ann@example.com" 100))
      with 1 in Hrow.
    rewrite Hrow. simpl. by rewrite Hstatus.
Defined.

(** Two notes on Ann's application. *)
Lemma set_notes_last_write_witness :
  store (admin_update_application_notes 201 1 (post_notes "second")
           (store (admin_update_application_notes 200 1 (post_notes "first")
                     shelter0)))
  = store (admin_update_application_notes 201 1 (post_notes "second")
             shelter0).
Proof.
  apply (set_notes_last_write 200 201 1 (post_notes "first")
           (post_notes "second") shelter0).
  reflexivity.
Defined.

(** Approving and annotating Ann's application, in both orders. *)
Lemma status_and_notes_commute_witness :
  store (admin_update_application_notes 201 1 (post_notes "visited")
           (store (admin_update_application_status status_label 200 1
                     (post_status "approved") shelter0)))
  = store (admin_update_application_status status_label 201 1
             (post_status "approved")
             (store (admin_update_application_notes 200 1
                       (post_notes "visited") shelter0))).
Proof.
  apply (status_and_notes_commute status_label 200 201 1
           (post_status "approved") (post_notes "visited") shelter0
           "approved").
  - reflexivity.
  - reflexivity.
  - reflexivity.
  - compute_done.
Defined.

(** Ann's application keeps its form columns through
    [complete_both_revert_one]. *)
Lemma applications_never_rewritten_witness :
  exists a',
    applications (perform_all status_label decimal EmptyString lacks_applicant
                    complete_both_revert_one shelter0) !! 1 = Some a'
    /\ AdoptionApplication.form_columns a'
       = AdoptionApplication.form_columns
           (pending_application 7 "Ann" "ann@example.com" 100).
Proof.
  apply (applications_never_rewritten status_label decimal EmptyString lacks_applicant
           complete_both_revert_one shelter0 1
           (pending_application 7 "Ann" "ann@example.com" 100)).
  exact shelter0_ann.
Defined.

Lemma pets_on_file_invariant_witness :
  pets_on_file (perform_all status_label decimal EmptyString lacks_applicant
                  two_submissions shelter0).
Proof.
  apply (pets_on_file_invariant status_label decimal EmptyString lacks_applicant
           two_submissions shelter0).
  compute_done.
Defined.

Lemma statuses_recognized_invariant_witness :
  statuses_recognized (perform_all status_label decimal EmptyString lacks_applicant
                         complete_both_revert_one shelter0).
Proof.
  apply (statuses_recognized_invariant status_label decimal EmptyString lacks_applicant
           complete_both_revert_one shelter0).
  compute_done.
Defined.


(** A form with a number of adults that is not a number files nothing. *)
Lemma refused_form_files_nothing_witness :
  let request :=
    Request.mk "POST" adopter
      (applicant_form "Ann" "ann@example.com"
       ++ [("household_adults", "lots")]%string) None in
  let o := adoption_application decimal EmptyString lacks_applicant 300
             (Some 1) request shelter0 in
  store o = shelter0 /\ response o = Uncaught "ValueError".
Proof.
  destruct (refused_form_files_nothing decimal EmptyString lacks_applicant
              300 (Some 1)
              (Request.mk "POST" adopter
                 (applicant_form "Ann" "ann@example.com"
                  ++ [("household_adults", "lots")]%string) None)
              shelter0 1 luna) as (Hstore & _ & exc & Hexc).
  - reflexivity.
  - reflexivity.
  - by vm_compute.
  - left. by split.
  - by vm_compute.
  - split; [exact Hstore|]. by vm_compute.
Defined.

(** Once Ann's application is completed, a further application for Luna is
    turned away. *)
Lemma completed_blocks_submission_witness :
  let s1 := store (admin_update_application_status status_label 200 1
                     (post_status "completed") shelter0) in
  let o := adoption_application decimal EmptyString lacks_applicant 300 (Some 1)
             (post_form (Account 9 false false) "Cy" "cy@example.com") s1 in
  store o = s1
  /\ messages o = [(error, "Pet not found or no longer available."%string)].
Proof.
  destruct (completed_blocks_submission status_label decimal EmptyString lacks_applicant
              200 300 1 (post_status "completed") (Some 1)
              (post_form (Account 9 false false) "Cy" "cy@example.com")
              shelter0 (pending_application 7 "Ann" "ann@example.com" 100)
              luna) as (Hstore & Hmsg & _).
  - reflexivity.
  - reflexivity.
  - exact shelter0_ann.
  - exact shelter0_luna.
  - reflexivity.
  - reflexivity.
  - left. by split.
  - split; [exact Hstore | exact Hmsg].
Defined.


Lemma viewing_lowers_unread_witness :
  (count_unread (inbox (admin_contact_detail 5 get_page sample_inbox)) + 1
   = count_unread sample_inbox)%nat.
Proof.
  apply (viewing_lowers_unread 5 get_page sample_inbox enquiry).
  - reflexivity.
  - by vm_compute.
Defined.

(** The enquiry is marked as not responded, then as responded. *)
Lemma contact_marking_last_wins_witness :
  ContactMessage.is_responded
    <$> inbox (admin_update_contact_status 5 (post_action "mark_responded")
                 (inbox (admin_update_contact_status 5
                           (post_action "mark_unresponded") sample_inbox)))
        !! 5
  = Some true.
Proof.
  destruct (contact_marking_last_wins 5 (post_action "mark_unresponded")
              (post_action "mark_responded") sample_inbox enquiry
              "mark_unresponded" "mark_responded" false true)
    as (_ & Hlast & _).
  - reflexivity.
  - reflexivity.
  - by vm_compute.
  - reflexivity.
  - reflexivity.
  - reflexivity.
  - reflexivity.
  - exact Hlast.
Defined.

Lemma contact_unknown_action_witness :
  inbox (admin_update_contact_status 5 (post_action "archive") sample_inbox)
  = sample_inbox.
Proof.
  destruct (contact_unknown_action 5 (post_action "archive") sample_inbox)
    as (Hsame & _).
  - discriminate.
  - discriminate.
  - exact Hsame.
Defined.

(** Completing Ann's application: Luna leaves the available pets and joins
    the adopted ones. *)
Lemma completing_moves_one_pet_witness :
  let s' := store (admin_update_application_status status_label 200 1
                     (post_status "completed") shelter0) in
  Dashboard.available_pets (dashboard_stats shelter0 sample_inbox)
  = S (Dashboard.available_pets (dashboard_stats s' sample_inbox))
  /\ Dashboard.total_adopted (dashboard_stats s' sample_inbox)
     = S (Dashboard.total_adopted (dashboard_stats shelter0 sample_inbox)).
Proof.
  destruct (completing_moves_one_pet status_label 200 1
              (post_status "completed") shelter0 sample_inbox
              (pending_application 7 "Ann" "ann@example.com" 100) luna)
    as (Havail & Hadopt & _).
  - reflexivity.
  - reflexivity.
  - exact shelter0_ann.
  - exact shelter0_luna.
  - reflexivity.
  - split; [exact Havail | exact Hadopt].
Defined.

Lemma dashboard_recent_applications_witness :
  exists d,
    admin_dashboard get_page (shelter0, sample_inbox)
    = page "shelter/admin/admin_dashboard.html" d
    /\ (length (Dashboard.recent_applications d) <= 5)%nat.
Proof.
  destruct (dashboard_recent_applications get_page shelter0 sample_inbox)
    as (d & Hpage & _ & Hlen & _).
  - reflexivity.
  - exists d. split; [exact Hpage | exact Hlen].
Defined.

(** Ann's page. *)
Lemma user_applications_lists_own_witness :
  exists l,
    user_applications sample_email
      (Request.mk "GET" adopter [] None) shelter0
    = page "shelter/user_applications.html" l
    /\ NoDup l
    /\ (1, pending_application 7 "Ann" "ann@example.com" 100) ∈ l.
Proof.
  destruct (user_applications_lists_own sample_email
              (Request.mk "GET" adopter [] None) shelter0 7 false false)
    as (l & Hpage & Hnodup & _ & Hlisted).
  - reflexivity.
  - exists l. split_and!; [exact Hpage | exact Hnodup |].
    apply Hlisted. split; [exact shelter0_ann | by left].
Defined.

Lemma account_shows_latest_three_witness :
  account sample_email (Request.mk "GET" staff [] None) shelter0
  = instead (redirect "admin_dashboard" []).
Proof.
  destruct (account_shows_latest_three sample_email
              (Request.mk "GET" staff [] None) shelter0 2 true false)
    as (Hstaff & _).
  - reflexivity.
  - by apply Hstaff.
Defined.



(** The rule "adopted only if completed", started where Luna is adopted
    through Ann's application: Bob's application is completed and reverted,
    which frees Luna although Ann's is still completed, then Ann's is
    completed again and Luna is adopted. *)
Lemma adopted_only_if_completed_invariant_witness :
  let ops := [ set_status 201 2 (post_status "completed");
               set_status 202 2 (post_status "approved");
               set_status 203 1 (post_status "completed") ] in
  let s' := perform_all status_label decimal EmptyString lacks_applicant
              ops
              (perform_all status_label decimal EmptyString lacks_applicant
                 complete_approve shelter0) in
  adopted_only_if_completed s'
  /\ Pet.status <$> pets s' !! 1 = Some "adopted"%string.
Proof.
  cbv zeta. split; [|by vm_compute].
  apply (adopted_only_if_completed_invariant status_label decimal EmptyString
           lacks_applicant).
  compute_done.
Defined.

(** A staff POST approving Ann's application, sent from her page. *)
Lemma status_redirect_target_witness :
  let request :=
    Request.mk "POST" staff [("status", "approved")]%string
      (Some "/manage/admin_application_detail/1/"%string) in
  response (admin_update_application_status status_label 200 1
              request shelter0)
  = redirect "admin_application_detail" [("application_id"%string, IntArg 1)].
Proof.
  destruct (status_redirect_target status_label 200 1
              (Request.mk "POST" staff [("status", "approved")]%string
                 (Some "/manage/admin_application_detail/1/"%string))
              shelter0) as ((_ & Hdetail) & _).
  - reflexivity.
  - intros _. exists (pending_application 7 "Ann" "ann@example.com" 100).
    split; [exact shelter0_ann | exists luna; exact shelter0_luna].
  - apply Hdetail.
    exists "/manage/admin_application_detail/1/"%string,
           "/manage/"%string, "/1/"%string.
    by split.
Defined.
